(** * masf: the image data generator (data_generator.py)

    A shallow embedding of [ImageDataGenerator]: the manifest loader
    ([_read_txt_file], [_shuffle_lists]) and the per-sample parsing
    functions ([_parse_function_train], [_parse_function_inference],
    [augment], [flip]), together with the Python built-ins and the
    TensorFlow operations they call.

    Text is modelled as ASCII [string]s, integers as [Z], float32 values
    as [spec_float] at precision 24 and maximal exponent 128, exceptions
    as the [Raise] branch of [result]. *)

From Stdlib Require Import ZArith QArith List String Ascii Bool Lia Permutation.
From Stdlib Require Import Floats.SpecFloat.
Import ListNotations.

Local Open Scope string_scope.
Local Open Scope list_scope.
Local Open Scope Z_scope.

(** ** Exceptions and results *)

Inductive exn : Set :=
| OSError                 (* open() of a manifest that cannot be opened:
                             FileNotFoundError and its sibling classes *)
| IndexError              (* list index out of range *)
| ValueError              (* int() of a malformed literal *)
| NotFoundError           (* tf.read_file of an unreadable file *)
| InvalidArgumentError    (* a TensorFlow kernel rejected its argument *)
| OutOfRangeError.        (* TensorFlow's out-of-range status *)

Inductive result (A : Type) : Type :=
| Ok (a : A)
| Raise (e : exn).

Arguments Ok {A} a.
Arguments Raise {A} e.

Definition bind {A B : Type} (r : result A) (k : A -> result B) : result B :=
  match r with
  | Ok a => k a
  | Raise e => Raise e
  end.

Notation "x <- r ;; k" := (bind r (fun x => k))
  (at level 61, r at next level, right associativity).

(** The error taxonomy of the specification, as classes of exceptions:
    a missing second item and a malformed literal are both format errors;
    the range class is TensorFlow's out-of-range status. *)
Definition is_FormatError (e : exn) : bool :=
  match e with
  | IndexError | ValueError => true
  | _ => false
  end.

Definition is_RangeError (e : exn) : bool :=
  match e with
  | OutOfRangeError => true
  | _ => false
  end.

(** ** Python built-ins used by the loader *)

Module Py.

Definition LF : ascii := "010"%char.
Definition CR : ascii := "013"%char.
Definition SP : ascii := " "%char.

(** Text-mode [open(..., 'r')] translates the line endings CR LF and a
    lone CR into LF before the program sees the text. *)
Fixpoint universal_newlines (s : string) : string :=
  match s with
  | EmptyString => EmptyString
  | String c r =>
      if Ascii.eqb c CR then
        String LF
          match r with
          | String c' r' =>
              if Ascii.eqb c' LF then universal_newlines r'
              else universal_newlines r
          | EmptyString => EmptyString
          end
      else String c (universal_newlines r)
  end.

(** Lines of a translated text, each keeping its terminating LF. *)
Fixpoint splitlines (s : string) : list string :=
  match s with
  | EmptyString => []
  | String c r =>
      if Ascii.eqb c LF then String c EmptyString :: splitlines r
      else match splitlines r with
           | [] => [String c EmptyString]
           | l :: ls => String c l :: ls
           end
  end.

(** [f.readlines()] on a file opened in text mode. *)
Definition readlines (content : string) : list string :=
  splitlines (universal_newlines content).

(** [s.split(sep)] for a one-character separator: every occurrence
    splits, so there is always at least one item and items may be empty. *)
Fixpoint split (sep : ascii) (s : string) : list string :=
  match s with
  | EmptyString => [EmptyString]
  | String c r =>
      if Ascii.eqb c sep then EmptyString :: split sep r
      else match split sep r with
           | [] => [String c EmptyString]
           | h :: t => String c h :: t
           end
  end.

(** [items[i]] for a non-negative index. *)
Definition index {A : Type} (items : list A) (i : nat) : result A :=
  match nth_error items i with
  | Some a => Ok a
  | None => Raise IndexError
  end.

(** White space skipped by [int()] around an ASCII literal. *)
Definition isspace (c : ascii) : bool :=
  let n := nat_of_ascii c in
  (Nat.leb 9 n && Nat.leb n 13)%bool || Nat.eqb n 32.

Definition digit_value (c : ascii) : option Z :=
  let n := nat_of_ascii c in
  if (Nat.leb 48 n && Nat.leb n 57)%bool then Some (Z.of_nat n - 48)
  else None.

Fixpoint lstrip (s : string) : string :=
  match s with
  | EmptyString => EmptyString
  | String c r => if isspace c then lstrip r else s
  end.

Fixpoint all_space (s : string) : bool :=
  match s with
  | EmptyString => true
  | String c r => isspace c && all_space r
  end.

(** The digits after the first one: single underscores may separate
    digits, and only white space may follow the last digit. *)
Fixpoint scan_digits (acc : Z) (after_underscore : bool) (s : string)
  : option Z :=
  match s with
  | EmptyString => if after_underscore then None else Some acc
  | String c r =>
      match digit_value c with
      | Some d => scan_digits (10 * acc + d) false r
      | None =>
          if Ascii.eqb c "_"%char then
            if after_underscore then None else scan_digits acc true r
          else if after_underscore then None
          else if all_space s then Some acc
          else None
      end
  end.

(** [int(s)] on ASCII text: optional white space, an optional sign, a
    digit, more digits, optional white space; [ValueError] otherwise.
    Beyond ASCII, [int] also reads other white space and digits, which
    this model does not. *)
Definition int (s : string) : result Z :=
  let s1 := lstrip s in
  let '(negative, s2) :=
    match s1 with
    | String c r =>
        if Ascii.eqb c "+"%char then (false, r)
        else if Ascii.eqb c "-"%char then (true, r)
        else (false, s1)
    | EmptyString => (false, s1)
    end in
  match s2 with
  | EmptyString => Raise ValueError
  | String c r =>
      match digit_value c with
      | None => Raise ValueError
      | Some d =>
          match scan_digits d false r with
          | Some v => Ok (if negative then - v else v)
          | None => Raise ValueError
          end
      end
  end.

Definition startswith (c : ascii) (s : string) : bool :=
  match s with
  | String c' _ => Ascii.eqb c' c
  | EmptyString => false
  end.

Fixpoint endswith (c : ascii) (s : string) : bool :=
  match s with
  | EmptyString => false
  | String c' EmptyString => Ascii.eqb c' c
  | String _ r => endswith c r
  end.

(** [os.path.join(a, b)] of posixpath: an absolute [b] discards [a];
    otherwise a separator is inserted unless [a] is empty or already
    ends with one. *)
Definition os_path_join (a b : string) : string :=
  if startswith "/"%char b then b
  else if (String.eqb a EmptyString || endswith "/"%char a)%bool then (a ++ b)%string
  else (a ++ "/" ++ b)%string.

End Py.

(** ** The generator object and the manifest loader *)

Record generator : Type := mkGenerator {
  dataroot : string;
  txt_file : string;
  num_classes : Z;
  img_paths : list string;
  labels : list Z;
  data_size : nat
}.

Definition set_lists (self : generator) (ps : list string) (ls : list Z)
  : generator :=
  mkGenerator (dataroot self) (txt_file self) (num_classes self) ps ls
              (data_size self).

Definition set_data_size (self : generator) (n : nat) : generator :=
  mkGenerator (dataroot self) (txt_file self) (num_classes self)
              (img_paths self) (labels self) n.

(** One iteration of the loop of [_read_txt_file]. *)
Definition read_line (self : generator) (line : string) : result generator :=
  let items := Py.split Py.SP line in
  item0 <- Py.index items 0 ;;
  let paths := img_paths self ++ [Py.os_path_join (dataroot self) item0] in
  item1 <- Py.index items 1 ;;
  label <- Py.int item1 ;;
  Ok (set_lists self paths (labels self ++ [label])).

Fixpoint read_lines (self : generator) (lines : list string)
  : result generator :=
  match lines with
  | [] => Ok self
  | line :: rest => self' <- read_line self line ;; read_lines self' rest
  end.

Section Loader.

(** The files that [open] can open, with their contents. *)
Variable fs : string -> option string.

Definition _read_txt_file (self : generator) : result generator :=
  let self := set_lists self [] [] in
  match fs (txt_file self) with
  | None => Raise OSError
  | Some content => read_lines self (Py.readlines content)
  end.

End Loader.

(** [_shuffle_lists]; [np_random_permutation n] is the array that
    [np.random.permutation(n)] returns, an explicit input here. *)
Fixpoint shuffle_loop (path : list string) (lbls : list Z)
  (permutation : list nat) (self : generator) : result generator :=
  match permutation with
  | [] => Ok self
  | i :: rest =>
      p <- Py.index path i ;;
      l <- Py.index lbls i ;;
      shuffle_loop path lbls rest
        (set_lists self (img_paths self ++ [p]) (labels self ++ [l]))
  end.

Definition _shuffle_lists (np_random_permutation : nat -> list nat)
  (self : generator) : result generator :=
  let path := img_paths self in
  let lbls := labels self in
  let permutation := np_random_permutation (data_size self) in
  shuffle_loop path lbls permutation (set_lists self [] []).

(** Lines 34-46 of [__init__]: load the lists, record their size, and
    shuffle them if asked to. *)
Definition init_lists (fs : string -> option string)
  (np_random_permutation : nat -> list nat)
  (txt_file dataroot : string) (num_classes : Z) (shuffle : bool)
  : result generator :=
  let self := mkGenerator dataroot txt_file num_classes [] [] 0 in
  self <- _read_txt_file fs self ;;
  let self := set_data_size self (List.length (labels self)) in
  if shuffle then _shuffle_lists np_random_permutation self else Ok self.

(** ** TensorFlow operations used by the parsing functions *)

Module TF.

(** float32: binary floating point with 24 bits of precision. *)
Definition float32 : Type := spec_float.
Definition prec : Z := 24.
Definition emax : Z := 128.

Definition of_Z (n : Z) : float32 := binary_normalize prec emax n 0 false.
Definition sub (x y : float32) : float32 := SFsub prec emax x y.
Definition div (x y : float32) : float32 := SFdiv prec emax x y.

(** The float32 nearest to the decimal [n / 10^3]. *)
Definition of_milli (n : Z) : float32 := div (of_Z n) (of_Z 1000).

Definition zero : float32 := S754_zero false.
Definition one : float32 := of_Z 1.

Definition tensor1 (A : Type) : Type := list A.
(** height, width, channels *)
Definition tensor3 (A : Type) : Type := list (list (list A)).

Definition has_shape {A : Type} (h w c : nat) (t : tensor3 A) : bool :=
  Nat.eqb (List.length t) h
  && forallb (fun row =>
       Nat.eqb (List.length row) w
       && forallb (fun px => Nat.eqb (List.length px) c) row) t.

(** [tf.fill([h, w], px)]: the image whose every pixel is [px]. *)
Definition fill {A : Type} (h w : nat) (px : list A) : tensor3 A :=
  repeat (repeat px w) h.

Definition range (n : Z) : list Z := map Z.of_nat (seq 0 (Z.to_nat n)).

(** [tf.one_hot(indices, depth)] for a scalar index: position [d] holds
    the on-value exactly when [d] is the index, the off-value otherwise;
    the kernel only rejects a negative depth. *)
Definition one_hot (indices depth : Z) : result (tensor1 float32) :=
  if depth <? 0 then Raise InvalidArgumentError
  else Ok (map (fun d => if Z.eqb indices d then one else zero)
               (range depth)).

(** Broadcasting of the last axis of the two operands of [tf.subtract]:
    equal lengths pair up, a length of one is replicated, anything else
    is incompatible. *)
Definition broadcast_sub (px m : list float32) : result (list float32) :=
  if Nat.eqb (List.length px) (List.length m)
  then Ok (map (fun pm => sub (fst pm) (snd pm)) (combine px m))
  else match px, m with
       | [p], _ => Ok (map (fun y => sub p y) m)
       | _, [y] => Ok (map (fun p => sub p y) px)
       | _, _ => Raise InvalidArgumentError
       end.

Fixpoint mapM {A B : Type} (f : A -> result B) (l : list A)
  : result (list B) :=
  match l with
  | [] => Ok []
  | a :: r => b <- f a ;; bs <- mapM f r ;; Ok (b :: bs)
  end.

(** [tf.subtract(x, y)] of an image and a vector over its channels. *)
Definition subtract (x : tensor3 float32) (y : tensor1 float32)
  : result (tensor3 float32) :=
  mapM (mapM (fun px => broadcast_sub px y)) x.

(** [x[:, :, ::-1]] *)
Definition reverse_channels {A : Type} (x : tensor3 A) : tensor3 A :=
  map (map (@rev A)) x.

(** [tf.reverse(x, [1])]: the image mirrored left to right. *)
Definition flip_left_right {A : Type} (x : tensor3 A) : tensor3 A :=
  map (@rev (list A)) x.

(** The pixel in row [i] and column [j]. *)
Definition pixel {A : Type} (x : tensor3 A) (i j : nat) : option (list A) :=
  match nth_error x i with
  | Some row => nth_error row j
  | None => None
  end.

(** [a < b] on scalars drawn from the unit interval. *)
Definition less (a b : Q) : bool :=
  (Qnum a * Zpos (Qden b) <? Qnum b * Zpos (Qden a)).

End TF.

(** ** Random draws

    Every [tf.random_uniform([], 0, 1)] takes the next draw of a supply.
    A computation of the graph threads the supply and may raise. *)

Definition supply : Type := nat -> Q.

Definition M (A : Type) : Type := supply -> result A * supply.

Definition ret {A : Type} (a : A) : M A := fun s => (Ok a, s).

Definition lift {A : Type} (r : result A) : M A := fun s => (r, s).

Definition bindM {A B : Type} (m : M A) (k : A -> M B) : M B :=
  fun s =>
    match m s with
    | (Ok a, s') => k a s'
    | (Raise e, s') => (Raise e, s')
    end.

Notation "x <~ m ;; k" := (bindM m (fun x => k))
  (at level 61, m at next level, right associativity).

(** The supply after its first draw. *)
Definition rest (s : supply) : supply := fun n => s (S n).

Definition random_uniform : M Q :=
  fun s => (Ok (s 0%nat), rest s).

(** [tf.cond(pred, true_fn, false_fn)]: only the chosen branch runs. *)
Definition cond {A : Type} (pred : bool) (true_fn false_fn : M A) : M A :=
  if pred then true_fn else false_fn.

(** [tf.image.random_flip_left_right]: mirror when its own draw is
    below one half. *)
Definition random_flip_left_right {A : Type} (image : TF.tensor3 A)
  : M (TF.tensor3 A) :=
  uniform_random <~ random_uniform ;;
  cond (TF.less uniform_random (1 # 2))
       (ret (TF.flip_left_right image))
       (ret image).

(** ** The parsing functions *)

Definition IMAGENET_MEAN : TF.tensor1 TF.float32 :=
  [TF.of_milli 123680; TF.of_milli 116779; TF.of_milli 103939].

(** What [tf.subtract] leaves of a pixel that has as many channels as
    the mean: channel by channel, the value minus the mean. *)
Definition centred (px : list TF.float32) : list TF.float32 :=
  map (fun pm => TF.sub (fst pm) (snd pm)) (combine px IMAGENET_MEAN).

Definition flip {A : Type} (x : TF.tensor3 A) : M (TF.tensor3 A) :=
  random_flip_left_right x.

(** The loop of [augment] over a list of augmentations. *)
Fixpoint augment_loop {A : Type}
  (augmentations : list (TF.tensor3 A -> M (TF.tensor3 A)))
  (x : TF.tensor3 A) : M (TF.tensor3 A) :=
  match augmentations with
  | [] => ret x
  | f :: rest =>
      u <~ random_uniform ;;
      x' <~ cond (TF.less u (1 # 4)) (f x) (ret x) ;;
      augment_loop rest x'
  end.

Definition augment {A : Type} (x : TF.tensor3 A) : M (TF.tensor3 A) :=
  let augmentations := [flip] in
  augment_loop augmentations x.

(** Line 112: the augmentation "with a chance of 50%". *)
Definition augment_with_chance {A : Type} (img_bgr : TF.tensor3 A)
  : M (TF.tensor3 A) :=
  u <~ random_uniform ;;
  cond (TF.less u (1 # 2)) (augment img_bgr) (ret img_bgr).

Section Parsing.

(** The kernels outside the repository: file reading, PNG decoding and
    image resizing. *)
Variable read_file : string -> result string.
Variable decode_png : string -> nat -> result (TF.tensor3 Z).
Variable resize_images : TF.tensor3 Z -> nat * nat -> TF.tensor3 TF.float32.

Definition _parse_function_train (self : generator) (filename : string)
  (label : Z) : M (TF.tensor3 TF.float32 * TF.tensor1 TF.float32) :=
  one_hot <~ lift (TF.one_hot label (num_classes self)) ;;
  img_string <~ lift (read_file filename) ;;
  img_decoded <~ lift (decode_png img_string 3) ;;
  let img_resized := resize_images img_decoded (227, 227)%nat in
  img_centered <~ lift (TF.subtract img_resized IMAGENET_MEAN) ;;
  let img_bgr := TF.reverse_channels img_centered in
  img_bgr <~ augment_with_chance img_bgr ;;
  ret (img_bgr, one_hot).

Definition _parse_function_inference (self : generator) (filename : string)
  (label : Z) : M (TF.tensor3 TF.float32 * TF.tensor1 TF.float32) :=
  one_hot <~ lift (TF.one_hot label (num_classes self)) ;;
  img_string <~ lift (read_file filename) ;;
  img_decoded <~ lift (decode_png img_string 3) ;;
  let img_resized := resize_images img_decoded (227, 227)%nat in
  img_centered <~ lift (TF.subtract img_resized IMAGENET_MEAN) ;;
  let img_bgr := TF.reverse_channels img_centered in
  ret (img_bgr, one_hot).

(** The statements that the two parsing functions have in common
    (lines 99-109 and 119-129); they make no draw. *)
Definition preprocess (self : generator) (filename : string) (label : Z)
  : result (TF.tensor3 TF.float32 * TF.tensor1 TF.float32) :=
  one_hot <- TF.one_hot label (num_classes self) ;;
  img_string <- read_file filename ;;
  img_decoded <- decode_png img_string 3 ;;
  let img_resized := resize_images img_decoded (227, 227)%nat in
  img_centered <- TF.subtract img_resized IMAGENET_MEAN ;;
  Ok (TF.reverse_channels img_centered, one_hot).

End Parsing.

(** ** Well-formed manifests

    A manifest line is a relative path, one space, a decimal integer and
    a line feed. *)

Fixpoint string_forallb (p : ascii -> bool) (s : string) : bool :=
  match s with
  | EmptyString => true
  | String c r => p c && string_forallb p r
  end.

Definition is_digit (c : ascii) : bool :=
  match Py.digit_value c with
  | Some _ => true
  | None => false
  end.

(** A character that is neither the delimiter nor a line ending. *)
Definition plain (c : ascii) : bool :=
  negb (Ascii.eqb c Py.SP) && negb (Ascii.eqb c Py.LF)
  && negb (Ascii.eqb c Py.CR).

Definition digits (s : string) : bool :=
  negb (String.eqb s EmptyString) && string_forallb is_digit s.

Definition decimal_literal (s : string) : bool :=
  match s with
  | String c r =>
      if (Ascii.eqb c "-"%char || Ascii.eqb c "+"%char)%bool then digits r
      else digits s
  | EmptyString => false
  end.

(** The integer that a string of decimal digits denotes, by position. *)
Fixpoint digits_value (s : string) : Z :=
  match s with
  | EmptyString => 0
  | String c r =>
      (Z.of_nat (nat_of_ascii c) - 48) * 10 ^ Z.of_nat (String.length r)
      + digits_value r
  end.

Definition literal_value (s : string) : Z :=
  match s with
  | String c r =>
      if Ascii.eqb c "-"%char then - digits_value r
      else if Ascii.eqb c "+"%char then digits_value r
      else digits_value s
  | EmptyString => 0
  end.

Record entry : Type := mkEntry {
  rel_path : string;
  label_text : string
}.

Definition well_formed (e : entry) : bool :=
  string_forallb plain (rel_path e) && decimal_literal (label_text e).

(** The line of an entry, up to and including its line ending. *)
Definition line_text (e : entry) (ending : string) : string :=
  (rel_path e ++ String Py.SP (label_text e ++ ending))%string.

Definition line_of (e : entry) : string :=
  line_text e (String Py.LF EmptyString).

Fixpoint render (entries : list entry) : string :=
  match entries with
  | [] => EmptyString
  | e :: rest => (line_of e ++ render rest)%string
  end.

(** A manifest: lines that end with a line feed, then possibly a last
    line that has none. *)
Definition manifest_text (entries : list entry) (final : option entry)
  : string :=
  (render entries
   ++ match final with
      | Some e => line_text e EmptyString
      | None => EmptyString
      end)%string.

Definition manifest_entries (entries : list entry) (final : option entry)
  : list entry :=
  entries ++ match final with
             | Some e => [e]
             | None => []
             end.

(** A line on which the loop of [_read_txt_file] raises: it has no second
    item, or its second item is not an integer literal. *)
Definition lacks_pair (line : string) : bool :=
  Nat.ltb (List.length (Py.split Py.SP line)) 2.

Definition bad_label (line : string) : bool :=
  match nth_error (Py.split Py.SP line) 1 with
  | Some token =>
      match Py.int token with
      | Ok _ => false
      | Raise _ => true
      end
  | None => false
  end.

Definition bad_line (line : string) : bool :=
  lacks_pair line || bad_label line.

(** ** Counting draws on a grid

    The draws [k / den], [0 <= k < den], are equally likely; a triple of
    them feeds the three random operations of the training path. *)

Definition grid_draw (den k : nat) : Q := Z.of_nat k # Pos.of_nat den.

Definition draws_of (den : nat) (t : nat * (nat * nat)) : supply :=
  fun n =>
    match n with
    | O => grid_draw den (fst t)
    | S O => grid_draw den (fst (snd t))
    | S (S O) => grid_draw den (snd (snd t))
    | _ => 0%Q
    end.

Definition grid_triples (den : nat) : list (nat * (nat * nat)) :=
  list_prod (seq 0 den) (list_prod (seq 0 den) (seq 0 den)).

Definition count_bool {T : Type} (p : T -> bool) (l : list T) : nat :=
  List.length (filter p l).

Section Rate.

Context {A : Type} (eq_dec : forall a b : A, {a = b} + {a <> b}).

Definition tensor3_eq_dec (x y : TF.tensor3 A) : {x = y} + {x <> y} :=
  list_eq_dec (list_eq_dec (list_eq_dec eq_dec)) x y.

(** Does the training-time augmentation change [x] under the draws [s]? *)
Definition changed (x : TF.tensor3 A) (s : supply) : bool :=
  match fst (augment_with_chance x s) with
  | Ok y => if tensor3_eq_dec x y then false else true
  | Raise _ => false
  end.

End Rate.

(** ** A small instance of the external kernels

    Files hold their own name as contents except [missing.png]; the
    decoder yields a one-pixel image from the first byte; resizing
    replicates the top-left pixel. *)

Definition sample_read_file (filename : string) : result string :=
  if String.eqb filename "missing.png" then Raise NotFoundError
  else Ok filename.

Definition sample_decode_png (contents : string) (channels : nat)
  : result (TF.tensor3 Z) :=
  match contents with
  | EmptyString => Raise InvalidArgumentError
  | String c _ => Ok [[repeat (Z.of_nat (nat_of_ascii c)) channels]]
  end.

Definition sample_resize_images (img : TF.tensor3 Z) (size : nat * nat)
  : TF.tensor3 TF.float32 :=
  TF.fill (fst size) (snd size) (map TF.of_Z (hd [] (hd [] img))).

(** A resizing kernel whose output is the mean colour everywhere. *)
Definition mean_resize_images (img : TF.tensor3 Z) (size : nat * nat)
  : TF.tensor3 TF.float32 :=
  TF.fill (fst size) (snd size) IMAGENET_MEAN.

Definition sample_generator : generator :=
  mkGenerator "data" "list.txt" 2 ["data/cat1.png"; "data/dog1.png"] [0; 1] 2.

Definition sample_manifest : string := "cat1.png 0
dog1.png 1
".

Definition sample_fs (path : string) : option string :=
  if String.eqb path "list.txt" then Some sample_manifest else None.

(** ** Reference notions for the properties below *)

(** The supply after [n] draws. *)
Definition after (n : nat) (s : supply) : supply := fun k => s (n + k)%nat.

(** A transform that takes no draw and cannot fail. *)
Definition pure_transform {A : Type} (g : TF.tensor3 A -> TF.tensor3 A)
  : TF.tensor3 A -> M (TF.tensor3 A) :=
  fun x => ret (g x).

(** Each function applied in turn when the draw at its position is
    below a quarter. *)
Fixpoint gated {A : Type} (gs : list (TF.tensor3 A -> TF.tensor3 A))
  (x : TF.tensor3 A) (s : supply) : TF.tensor3 A :=
  match gs with
  | [] => x
  | g :: more =>
      gated more (if TF.less (s 0%nat) (1 # 4) then g x else x) (rest s)
  end.

(** The same text with Windows line endings: a carriage return before
    every line feed. *)
Fixpoint to_crlf (s : string) : string :=
  match s with
  | EmptyString => EmptyString
  | String c r =>
      if Ascii.eqb c Py.LF then String Py.CR (String Py.LF (to_crlf r))
      else String c (to_crlf r)
  end.

(** An index that both lists have. *)
Definition in_range (path : list string) (lbls : list Z) (i : nat) : bool :=
  Nat.ltb i (List.length path) && Nat.ltb i (List.length lbls).

(** The text before the first space of a line, and the text between its
    first and second space. *)
Definition first_item (line : string) : string :=
  nth 0 (Py.split Py.SP line) EmptyString.

Definition second_item (line : string) : string :=
  nth 1 (Py.split Py.SP line) EmptyString.

(** ** Integer literals and readable lines

    The grammar of the literals that [int] reads from ASCII text: decimal
    digits in groups separated by single underscores, after an optional
    sign, with white space allowed around. [ds] is the digits of the
    groups without the underscores. *)

Inductive digit_groups : string -> string -> Prop :=
| one_group (g : string) :
    digits g = true -> digit_groups g g
| more_groups (g more ds : string) :
    digits g = true -> digit_groups more ds ->
    digit_groups (g ++ String "_"%char more) (g ++ ds).

Definition integer_literal (s : string) (v : Z) : Prop :=
  exists before sign body behind ds,
    s = (before ++ sign ++ body ++ behind)%string
    /\ Py.all_space before = true /\ Py.all_space behind = true
    /\ digit_groups body ds
    /\ ((sign = EmptyString \/ sign = "+") /\ v = digits_value ds
        \/ sign = "-" /\ v = - digits_value ds).

(** A line that the loop can read: it has a second space-separated item
    and that item is an integer literal. *)
Definition readable (line : string) : Prop :=
  exists token v,
    nth_error (Py.split Py.SP line) 1 = Some token /\ integer_literal token v.

(** Text made of the 128 ASCII characters only. *)
Definition is_ascii (s : string) : bool :=
  string_forallb (fun c => Nat.ltb (nat_of_ascii c) 128) s.

(** Following the words of the specification: the label is the trailing
    token of the line, and a line is malformed when it has no
    space-delimited pair or when that token is not a base-10 integer. *)
Fixpoint chomp (line : string) : string :=
  match line with
  | EmptyString => EmptyString
  | String c r =>
      match r with
      | EmptyString => if Ascii.eqb c Py.LF then EmptyString else line
      | _ => String c (chomp r)
      end
  end.

Definition trailing_token (line : string) : string :=
  last (Py.split Py.SP (chomp line)) EmptyString.

Definition spec_bad_line (line : string) : bool :=
  lacks_pair line || negb (decimal_literal (trailing_token line)).

(** ** A second instance of the external kernels

    The decoder yields an image of one row and three pixels from the
    first three bytes; resizing copies the left pixel to the left half,
    the right pixel to the right half and the middle pixel between them. *)

Definition row_decode_png (contents : string) (channels : nat)
  : result (TF.tensor3 Z) :=
  match contents with
  | String a (String b (String c _)) =>
      Ok [[repeat (Z.of_nat (nat_of_ascii a)) channels;
           repeat (Z.of_nat (nat_of_ascii b)) channels;
           repeat (Z.of_nat (nat_of_ascii c)) channels]]
  | _ => Raise InvalidArgumentError
  end.

Definition edge_resize_images (img : TF.tensor3 Z) (size : nat * nat)
  : TF.tensor3 TF.float32 :=
  let row := hd [] img in
  let px := fun i => map TF.of_Z (nth i row []) in
  repeat (repeat (px 0%nat) (snd size / 2)
          ++ repeat (px (List.length row / 2)%nat) (snd size mod 2)
          ++ repeat (px (List.length row - 1)%nat) (snd size / 2))
         (fst size).

(** * Properties *)

(** ** Evaluation on concrete inputs *)

Example read_two_lines :
  _read_txt_file sample_fs (mkGenerator "data" "list.txt" 2 [] [] 0)
  = Ok (mkGenerator "data" "list.txt" 2
          ["data/cat1.png"; "data/dog1.png"] [0; 1] 0).
Proof. reflexivity. Qed.

Example int_examples :
  Py.int "12" = Ok 12 /\ Py.int "-7
" = Ok (-7) /\ Py.int "1_000" = Ok 1000 /\ Py.int "" = Raise ValueError
  /\ Py.int "3x" = Raise ValueError /\ Py.int "_1" = Raise ValueError.
Proof. repeat split; reflexivity. Qed.

Example join_examples :
  Py.os_path_join "data" "a.png" = "data/a.png"
  /\ Py.os_path_join "data/" "a.png" = "data/a.png"
  /\ Py.os_path_join "" "a.png" = "a.png"
  /\ Py.os_path_join "data" "/a.png" = "/a.png".
Proof. repeat split; reflexivity. Qed.

Example shuffle_example :
  _shuffle_lists (fun _ => [1; 0]%nat) sample_generator
  = Ok (mkGenerator "data" "list.txt" 2
          ["data/dog1.png"; "data/cat1.png"] [1; 0] 2).
Proof. reflexivity. Qed.

Example init_lists_example :
  init_lists sample_fs (fun n => rev (seq 0 n)) "list.txt" "data" 2 true
  = Ok (mkGenerator "data" "list.txt" 2
          ["data/dog1.png"; "data/cat1.png"] [1; 0] 2).
Proof. reflexivity. Qed.

Example imagenet_mean_bits :
  IMAGENET_MEAN = [S754_finite false 16210985 (-17);
                   S754_finite false 15306457 (-17);
                   S754_finite false 13623493 (-17)].
Proof. vm_compute. reflexivity. Qed.

Example one_hot_of_class_1 : TF.one_hot 1 3 = Ok [TF.zero; TF.one; TF.zero].
Proof. reflexivity. Qed.

Example sub_mean_mean :
  TF.broadcast_sub IMAGENET_MEAN IMAGENET_MEAN = Ok [TF.zero; TF.zero; TF.zero].
Proof. vm_compute. reflexivity. Qed.

(** ** Strings and characters *)

Lemma append_assoc (a b c : string) :
  ((a ++ b) ++ c = a ++ (b ++ c))%string.
Proof.
  induction a as [|x a IH]; simpl; [reflexivity | now rewrite IH].
Qed.

Lemma string_forallb_app (p : ascii -> bool) (a b : string) :
  string_forallb p (a ++ b)%string = string_forallb p a && string_forallb p b.
Proof.
  induction a as [|x a IH]; simpl; [reflexivity|].
  rewrite IH. now rewrite andb_assoc.
Qed.

Lemma string_forallb_impl (p q : ascii -> bool) (s : string) :
  (forall c, p c = true -> q c = true) ->
  string_forallb p s = true -> string_forallb q s = true.
Proof.
  intros Hpq. induction s as [|x s IH]; simpl; [reflexivity|].
  intros H. apply andb_prop in H. destruct H as [Hx Hs].
  rewrite (Hpq _ Hx). now apply IH.
Qed.

Lemma plain_facts (c : ascii) :
  plain c = true ->
  Ascii.eqb c Py.SP = false /\ Ascii.eqb c Py.LF = false
  /\ Ascii.eqb c Py.CR = false.
Proof.
  unfold plain. intros H.
  apply andb_prop in H. destruct H as [H H3].
  apply andb_prop in H. destruct H as [H1 H2].
  repeat split; now apply negb_true_iff.
Qed.

Lemma is_digit_facts (c : ascii) :
  is_digit c = true ->
  Py.digit_value c = Some (Z.of_nat (nat_of_ascii c) - 48)
  /\ plain c = true /\ Py.isspace c = false
  /\ Ascii.eqb c "_"%char = false
  /\ Ascii.eqb c "-"%char = false /\ Ascii.eqb c "+"%char = false.
Proof.
  destruct c as [[] [] [] [] [] [] [] []]; vm_compute; intros H;
    try discriminate H; repeat split.
Qed.

Lemma sign_facts (c : ascii) :
  (Ascii.eqb c "-"%char || Ascii.eqb c "+"%char)%bool = true ->
  plain c = true /\ Py.isspace c = false.
Proof.
  intros H. apply orb_prop in H.
  destruct H as [H | H]; apply Ascii.eqb_eq in H; subst c; now vm_compute.
Qed.

(** ** Reading lines and splitting them *)

Lemma universal_newlines_app (a b : string) :
  string_forallb (fun c => negb (Ascii.eqb c Py.CR)) a = true ->
  Py.universal_newlines (a ++ b)
  = (a ++ Py.universal_newlines b)%string.
Proof.
  induction a as [|x a IH]; simpl; [reflexivity|].
  intros H. apply andb_prop in H. destruct H as [Hx Ha].
  apply negb_true_iff in Hx. rewrite Hx. now rewrite IH.
Qed.

Lemma splitlines_app (a b : string) :
  string_forallb (fun c => negb (Ascii.eqb c Py.LF)) a = true ->
  Py.splitlines (a ++ String Py.LF b)
  = (a ++ String Py.LF EmptyString)%string :: Py.splitlines b.
Proof.
  induction a as [|x a IH]; simpl; [reflexivity|].
  intros H. apply andb_prop in H. destruct H as [Hx Ha].
  apply negb_true_iff in Hx. rewrite Hx. now rewrite IH.
Qed.

Lemma split_app (a b : string) :
  string_forallb (fun c => negb (Ascii.eqb c Py.SP)) a = true ->
  Py.split Py.SP (a ++ String Py.SP b) = a :: Py.split Py.SP b.
Proof.
  induction a as [|x a IH]; simpl; [reflexivity|].
  intros H. apply andb_prop in H. destruct H as [Hx Ha].
  apply negb_true_iff in Hx. rewrite Hx. now rewrite IH.
Qed.

Lemma split_no_separator (a : string) :
  string_forallb (fun c => negb (Ascii.eqb c Py.SP)) a = true ->
  Py.split Py.SP a = [a].
Proof.
  induction a as [|x a IH]; simpl; [reflexivity|].
  intros H. apply andb_prop in H. destruct H as [Hx Ha].
  apply negb_true_iff in Hx. rewrite Hx. now rewrite IH.
Qed.

Lemma split_nonempty (sep : ascii) (s : string) : Py.split sep s <> [].
Proof.
  destruct s as [|c r]; simpl; [discriminate|].
  destruct (Ascii.eqb c sep); [discriminate|].
  destruct (Py.split sep r); discriminate.
Qed.

(** ** Integer literals *)

Lemma scan_digits_value (r ending : string) :
  (forall acc, Py.scan_digits acc false ending = Some acc) ->
  forall acc,
    string_forallb is_digit r = true ->
    Py.scan_digits acc false (r ++ ending)
    = Some (acc * 10 ^ Z.of_nat (String.length r) + digits_value r).
Proof.
  intros Hend. induction r as [|c r IH]; intros acc H.
  - cbn [String.append String.length digits_value]. rewrite Hend.
    f_equal. cbn. lia.
  - simpl in H. apply andb_prop in H. destruct H as [Hc Hr].
    destruct (is_digit_facts c Hc) as [Hd _].
    cbn [String.append Py.scan_digits]. rewrite Hd.
    rewrite (IH _ Hr). f_equal.
    cbn [String.length digits_value].
    rewrite Nat2Z.inj_succ, Z.pow_succ_r by lia. ring.
Qed.

Lemma line_ending_scanned (ending : string) :
  ending = EmptyString \/ ending = String Py.LF EmptyString ->
  forall acc, Py.scan_digits acc false ending = Some acc.
Proof. intros [-> | ->] acc; reflexivity. Qed.

Lemma int_digits (s ending : string) :
  ending = EmptyString \/ ending = String Py.LF EmptyString ->
  digits s = true ->
  (forall c r, s = String c r -> Py.isspace c = false
     /\ Ascii.eqb c "+"%char = false /\ Ascii.eqb c "-"%char = false) /\
  forall negative,
    match s with
    | EmptyString => False
    | String c r =>
        match Py.digit_value c with
        | None => False
        | Some d =>
            match Py.scan_digits d false (r ++ ending) with
            | Some v => (if negative : bool then - v else v)
                        = if negative then - digits_value s else digits_value s
            | None => False
            end
        end
    end.
Proof.
  intros Hend. unfold digits. intros H. apply andb_prop in H.
  destruct H as [Hne Hd].
  destruct s as [|c r]; [discriminate Hne|].
  simpl in Hd. apply andb_prop in Hd. destruct Hd as [Hc Hr].
  destruct (is_digit_facts c Hc) as (Hv & _ & Hsp & _ & Hm & Hp).
  split.
  - intros c' r' E. inversion E; subst. auto.
  - intros negative.
    rewrite Hv, (scan_digits_value r _ (line_ending_scanned _ Hend) _ Hr).
    cbn [digits_value]. destruct negative; reflexivity.
Qed.

Lemma int_literal (lit ending : string) :
  ending = EmptyString \/ ending = String Py.LF EmptyString ->
  decimal_literal lit = true ->
  Py.int (lit ++ ending) = Ok (literal_value lit).
Proof.
  intros Hend.
  destruct lit as [|c r]; [discriminate|].
  unfold decimal_literal, literal_value.
  destruct (Ascii.eqb c "-"%char || Ascii.eqb c "+"%char)%bool eqn:Hsign.
  - intros Hd. destruct (sign_facts c Hsign) as [_ Hsp].
    destruct (int_digits r _ Hend Hd) as [_ Hval].
    unfold Py.int. cbn [String.append Py.lstrip]. rewrite Hsp.
    destruct (Ascii.eqb c "+"%char) eqn:Hplus.
    + assert (Hminus : Ascii.eqb c "-"%char = false).
      { apply Ascii.eqb_eq in Hplus. subst c. reflexivity. }
      rewrite Hminus. specialize (Hval false).
      destruct r as [|d r']; [contradiction|]. cbn [String.append].
      cbn [String.append] in Hval.
      destruct (Py.digit_value d); [|contradiction].
      destruct (Py.scan_digits z false _); [|contradiction].
      now rewrite Hval.
    + assert (Hminus : Ascii.eqb c "-"%char = true).
      { destruct (Ascii.eqb c "-"%char); [reflexivity | discriminate Hsign]. }
      rewrite Hminus.
      specialize (Hval true).
      destruct r as [|d r']; [contradiction|]. cbn [String.append].
      cbn [String.append] in Hval.
      destruct (Py.digit_value d); [|contradiction].
      destruct (Py.scan_digits z false _); [|contradiction].
      now rewrite Hval.
  - intros Hd. destruct (int_digits _ _ Hend Hd) as [Hfirst Hval].
    destruct (Hfirst c r eq_refl) as (Hsp & Hplus & Hminus).
    unfold Py.int. cbn [String.append Py.lstrip].
    rewrite Hsp, Hplus, Hminus. specialize (Hval false). cbn beta iota in Hval.
    destruct (Py.digit_value c); [|contradiction].
    destruct (Py.scan_digits z false _); [|contradiction].
    now rewrite Hval.
Qed.

(** ** The manifest loader *)

Lemma decimal_literal_plain (lit : string) :
  decimal_literal lit = true -> string_forallb plain lit = true.
Proof.
  assert (Hdigits : forall s, digits s = true -> string_forallb plain s = true).
  { intros s H. unfold digits in H. apply andb_prop in H.
    apply (string_forallb_impl is_digit); [|apply H].
    intros c Hc. now destruct (is_digit_facts c Hc) as (_ & Hp & _). }
  destruct lit as [|c r]; [discriminate|]. unfold decimal_literal.
  destruct (Ascii.eqb c "-"%char || Ascii.eqb c "+"%char)%bool eqn:Hsign.
  - intros H. simpl. destruct (sign_facts c Hsign) as [Hp _].
    rewrite Hp. now apply Hdigits.
  - apply Hdigits.
Qed.

Lemma plain_not (x : ascii) (s : string) :
  (x = Py.SP \/ x = Py.LF \/ x = Py.CR) ->
  string_forallb plain s = true ->
  string_forallb (fun c => negb (Ascii.eqb c x)) s = true.
Proof.
  intros Hx. apply string_forallb_impl. intros c Hc.
  destruct (plain_facts c Hc) as (H1 & H2 & H3).
  destruct Hx as [-> | [-> | ->]]; now apply negb_true_iff.
Qed.

Lemma read_line_well_formed (self : generator) (e : entry)
  (ending : string) :
  ending = EmptyString \/ ending = String Py.LF EmptyString ->
  well_formed e = true ->
  read_line self (line_text e ending)
  = Ok (set_lists self
          (img_paths self ++ [Py.os_path_join (dataroot self) (rel_path e)])
          (labels self ++ [literal_value (label_text e)])).
Proof.
  intros Hend. unfold well_formed. intros H. apply andb_prop in H.
  destruct H as [Hp Hl].
  unfold read_line, line_text.
  rewrite split_app by (apply plain_not; auto).
  rewrite split_no_separator.
  - cbn [Py.index nth_error bind]. rewrite (int_literal _ _ Hend Hl).
    reflexivity.
  - rewrite string_forallb_app. apply andb_true_intro. split.
    + apply plain_not; [auto | now apply decimal_literal_plain].
    + destruct Hend as [-> | ->]; reflexivity.
Qed.

Lemma read_lines_app (l1 l2 : list string) :
  forall self,
    read_lines self (l1 ++ l2)
    = (self' <- read_lines self l1 ;; read_lines self' l2).
Proof.
  induction l1 as [|line l1 IH]; intros self; [reflexivity|].
  cbn [app read_lines].
  destruct (read_line self line) as [self'|e]; [|reflexivity].
  cbn [bind]. apply IH.
Qed.

Lemma read_lines_well_formed (entries : list entry) :
  forall self,
    forallb well_formed entries = true ->
    read_lines self (map line_of entries)
    = Ok (set_lists self
            (img_paths self
             ++ map (fun e => Py.os_path_join (dataroot self) (rel_path e))
                  entries)
            (labels self
             ++ map (fun e => literal_value (label_text e)) entries)).
Proof.
  induction entries as [|e rest IH]; intros self H.
  - simpl. rewrite !app_nil_r. now destruct self.
  - simpl in H. apply andb_prop in H. destruct H as [He Hrest].
    cbn [map read_lines]. unfold line_of.
    rewrite (read_line_well_formed _ _ _ (or_intror eq_refl) He).
    cbn [bind]. rewrite (IH _ Hrest). unfold set_lists. cbn.
    now rewrite <- !app_assoc.
Qed.

Lemma line_text_plain (e : entry) :
  well_formed e = true ->
  forall x, (x = Py.LF \/ x = Py.CR) ->
    string_forallb (fun c => negb (Ascii.eqb c x))
      (rel_path e ++ String Py.SP (label_text e))%string = true.
Proof.
  unfold well_formed. intros H. apply andb_prop in H. destruct H as [Hp Hl].
  apply decimal_literal_plain in Hl.
  intros x Hx. rewrite string_forallb_app. cbn [string_forallb].
  rewrite !plain_not by tauto.
  destruct Hx as [-> | ->]; reflexivity.
Qed.

Lemma line_of_render (e : entry) (rest : string) :
  (line_of e ++ rest
   = (rel_path e ++ String Py.SP (label_text e)) ++ String Py.LF rest)%string.
Proof.
  unfold line_of, line_text. rewrite !append_assoc. cbn [String.append].
  now rewrite append_assoc.
Qed.

Lemma append_empty (a : string) : (a ++ EmptyString)%string = a.
Proof. induction a as [|c a IH]; cbn; [reflexivity | now rewrite IH]. Qed.

Lemma line_text_bare (e : entry) :
  line_text e EmptyString
  = (rel_path e ++ String Py.SP (label_text e))%string
  /\ line_text e EmptyString <> EmptyString.
Proof.
  unfold line_text. rewrite append_empty. split; [reflexivity|].
  destruct (rel_path e); discriminate.
Qed.

Lemma universal_newlines_plain (a : string) :
  string_forallb (fun c => negb (Ascii.eqb c Py.CR)) a = true ->
  Py.universal_newlines a = a.
Proof.
  intros H. rewrite <- (append_empty a) at 1.
  rewrite (universal_newlines_app _ _ H). apply append_empty.
Qed.

Lemma splitlines_single (a : string) :
  string_forallb (fun c => negb (Ascii.eqb c Py.LF)) a = true ->
  a <> EmptyString ->
  Py.splitlines a = [a].
Proof.
  induction a as [|c a IH]; [congruence|].
  intros H _. simpl in H. apply andb_prop in H. destruct H as [Hc Ha].
  apply negb_true_iff in Hc. cbn [Py.splitlines]. rewrite Hc.
  destruct a as [|d a']; [reflexivity|].
  rewrite (IH Ha) by discriminate. reflexivity.
Qed.

Lemma readlines_manifest (entries : list entry) (final : option entry) :
  forallb well_formed (manifest_entries entries final) = true ->
  Py.readlines (manifest_text entries final)
  = map line_of entries
    ++ match final with
       | Some e => [line_text e EmptyString]
       | None => []
       end.
Proof.
  unfold manifest_entries, manifest_text, Py.readlines.
  rewrite forallb_app. intros H. apply andb_prop in H.
  destruct H as [Hentries Hfinal].
  set (tail := match final with
               | Some e => line_text e EmptyString
               | None => EmptyString
               end).
  assert (Htail : Py.universal_newlines tail = tail
                  /\ Py.splitlines tail
                     = match final with
                       | Some e => [line_text e EmptyString]
                       | None => []
                       end).
  { unfold tail. destruct final as [e|]; [|split; reflexivity].
    cbn in Hfinal. rewrite andb_true_r in Hfinal.
    destruct (line_text_bare e) as [Hbare Hne].
    split.
    - apply universal_newlines_plain. rewrite Hbare.
      apply line_text_plain; auto.
    - apply splitlines_single; [|exact Hne]. rewrite Hbare.
      apply line_text_plain; auto. }
  destruct Htail as [Hu Hs].
  assert (Hun : Py.universal_newlines (render entries ++ tail)
                = (render entries ++ tail)%string).
  { clear Hs. induction entries as [|e rest IH]; [exact Hu|].
    simpl in Hentries. apply andb_prop in Hentries.
    destruct Hentries as [He Hrest].
    cbn [render]. rewrite append_assoc, line_of_render.
    rewrite universal_newlines_app by (apply line_text_plain; auto).
    cbn [Py.universal_newlines]. change (Ascii.eqb Py.LF Py.CR) with false.
    cbv iota. now rewrite (IH Hrest). }
  rewrite Hun. clear Hun Hu.
  induction entries as [|e rest IH]; [exact Hs|].
  simpl in Hentries. apply andb_prop in Hentries.
  destruct Hentries as [He Hrest].
  cbn [render map app]. rewrite append_assoc, line_of_render.
  rewrite splitlines_app by (apply line_text_plain; auto).
  rewrite (IH Hrest). f_equal.
  unfold line_of, line_text. rewrite append_assoc. reflexivity.
Qed.

(** C2. A manifest of N well-formed lines loads into exactly N aligned
    pairs: the i-th path is the root directory joined with the path written
    on line i, and the i-th label is the integer written on line i. The
    last line may lack its line feed. *)
Theorem load_well_formed_manifest
  (fs : string -> option string) (self : generator)
  (entries : list entry) (final : option entry) :
  let all := manifest_entries entries final in
  forallb well_formed all = true ->
  fs (txt_file self) = Some (manifest_text entries final) ->
  exists self',
    _read_txt_file fs self = Ok self'
    /\ img_paths self'
       = map (fun e => Py.os_path_join (dataroot self) (rel_path e)) all
    /\ labels self' = map (fun e => literal_value (label_text e)) all
    /\ List.length (img_paths self') = List.length all
    /\ List.length (labels self') = List.length all
    /\ forall i e,
         nth_error all i = Some e ->
         nth_error (img_paths self') i
         = Some (Py.os_path_join (dataroot self) (rel_path e))
         /\ nth_error (labels self') i
            = Some (literal_value (label_text e)).
Proof.
  intros all Hwf Hfs. unfold _read_txt_file. cbv zeta.
  change (txt_file (set_lists self [] [])) with (txt_file self).
  rewrite Hfs, (readlines_manifest _ _ Hwf), read_lines_app.
  unfold all, manifest_entries in Hwf. rewrite forallb_app in Hwf.
  apply andb_prop in Hwf. destruct Hwf as [Hentries Hfinal].
  rewrite (read_lines_well_formed _ _ Hentries). cbn [bind].
  assert (Hall : exists self',
            read_lines
              (set_lists (set_lists self [] [])
                 (img_paths (set_lists self [] [])
                  ++ map (fun e => Py.os_path_join
                                     (dataroot (set_lists self [] []))
                                     (rel_path e)) entries)
                 (labels (set_lists self [] [])
                  ++ map (fun e => literal_value (label_text e)) entries))
              match final with
              | Some e => [line_text e EmptyString]
              | None => []
              end = Ok self'
            /\ img_paths self'
               = map (fun e => Py.os_path_join (dataroot self) (rel_path e))
                     all
            /\ labels self'
               = map (fun e => literal_value (label_text e)) all).
  { unfold all, manifest_entries. destruct final as [e|].
    - cbn in Hfinal. rewrite andb_true_r in Hfinal.
      cbn [read_lines].
      rewrite (read_line_well_formed _ _ _ (or_introl eq_refl) Hfinal).
      cbn [bind]. eexists. split; [reflexivity|].
      cbn. rewrite !map_app. split; reflexivity.
    - cbn [read_lines]. eexists. split; [reflexivity|].
      cbn. rewrite !app_nil_r. split; reflexivity. }
  destruct Hall as (self' & Hread & Hpaths & Hlabels).
  exists self'. split; [exact Hread|].
  rewrite Hpaths, Hlabels.
  repeat split; try now rewrite length_map.
  - rewrite nth_error_map, H. reflexivity.
  - rewrite nth_error_map, H. reflexivity.
Qed.

Lemma load_well_formed_manifest_witness :
  exists self',
    _read_txt_file sample_fs sample_generator = Ok self'
    /\ img_paths self' = ["data/cat1.png"; "data/dog1.png"]
    /\ labels self' = [0; 1].
Proof.
  destruct (load_well_formed_manifest sample_fs sample_generator
              [mkEntry "cat1.png" "0"; mkEntry "dog1.png" "1"] None
              eq_refl eq_refl) as (self' & H & Hp & Hl & _).
  exists self'. repeat split; assumption.
Defined.

Example load_unterminated_last_line :
  _read_txt_file (fun _ => Some "cat1.png 0
dog1.png -1") sample_generator
  = Ok (mkGenerator "data" "list.txt" 2
          ["data/cat1.png"; "data/dog1.png"] [0; -1] 2).
Proof. reflexivity. Qed.

(** ** The grammar of integer literals *)

Lemma string_length_app (a b : string) :
  String.length (a ++ b) = (String.length a + String.length b)%nat.
Proof.
  induction a as [|c a IH]; cbn; [reflexivity | now rewrite IH].
Qed.

Lemma digits_value_app (a b : string) :
  digits_value (a ++ b)
  = digits_value a * 10 ^ Z.of_nat (String.length b) + digits_value b.
Proof.
  induction a as [|c a IH]; [cbn [String.append digits_value]; lia|].
  cbn [String.append digits_value]. rewrite IH, string_length_app.
  rewrite Nat2Z.inj_add, Z.pow_add_r by lia. ring.
Qed.

Lemma digit_value_is_digit (c : ascii) (d : Z) :
  Py.digit_value c = Some d ->
  is_digit c = true /\ d = Z.of_nat (nat_of_ascii c) - 48.
Proof.
  intros H. unfold is_digit. rewrite H. split; [reflexivity|].
  unfold Py.digit_value in H.
  destruct (Nat.leb 48 (nat_of_ascii c) && Nat.leb (nat_of_ascii c) 57)%bool;
    [now inversion H | discriminate H].
Qed.

Lemma space_facts (c : ascii) :
  Py.isspace c = true ->
  Py.digit_value c = None /\ Ascii.eqb c "_"%char = false.
Proof.
  destruct c as [[] [] [] [] [] [] [] []]; vm_compute; intros H;
    try discriminate H; split; reflexivity.
Qed.

Lemma scan_all_space (behind : string) (acc : Z) :
  Py.all_space behind = true ->
  Py.scan_digits acc false behind = Some acc.
Proof.
  destruct behind as [|c r]; [reflexivity|]. intros H.
  pose proof H as H0. cbn [Py.all_space] in H0. apply andb_prop in H0.
  destruct (space_facts c (proj1 H0)) as [Hd Hu].
  cbn [Py.scan_digits]. now rewrite Hd, Hu, H.
Qed.

Lemma scan_run_of_digits (g behind : string) :
  forall acc,
    string_forallb is_digit g = true ->
    Py.scan_digits acc false (g ++ behind)
    = Py.scan_digits (acc * 10 ^ Z.of_nat (String.length g) + digits_value g)
        false behind.
Proof.
  induction g as [|c g IH]; intros acc H.
  - cbn [String.append String.length digits_value]. f_equal. cbn. lia.
  - simpl in H. apply andb_prop in H. destruct H as [Hc Hg].
    destruct (is_digit_facts c Hc) as [Hd _].
    cbn [String.append Py.scan_digits]. rewrite Hd, (IH _ Hg). f_equal.
    cbn [String.length digits_value].
    rewrite Nat2Z.inj_succ, Z.pow_succ_r by lia. ring.
Qed.

Lemma scan_group (g behind : string) (acc : Z) (u : bool) :
  digits g = true ->
  Py.scan_digits acc u (g ++ behind)
  = Py.scan_digits (acc * 10 ^ Z.of_nat (String.length g) + digits_value g)
      false behind.
Proof.
  unfold digits. intros H. apply andb_prop in H. destruct H as [Hne Hall].
  destruct g as [|c g]; [discriminate Hne|].
  pose proof (scan_run_of_digits (String c g) behind acc Hall) as Hrun.
  simpl in Hall. apply andb_prop in Hall. destruct Hall as [Hc Hg].
  destruct (is_digit_facts c Hc) as [Hd _].
  rewrite <- Hrun. cbn [String.append Py.scan_digits]. now rewrite Hd.
Qed.

Lemma scan_groups (body ds : string) :
  digit_groups body ds ->
  forall acc u behind,
    Py.all_space behind = true ->
    Py.scan_digits acc u (body ++ behind)
    = Some (acc * 10 ^ Z.of_nat (String.length ds) + digits_value ds).
Proof.
  induction 1 as [g Hg | g more ds Hg Hmore IH]; intros acc u behind Hb.
  - rewrite (scan_group _ _ _ _ Hg). now apply scan_all_space.
  - rewrite append_assoc, (scan_group _ _ _ _ Hg).
    cbn [String.append Py.scan_digits].
    change (Py.digit_value "_"%char) with (@None Z).
    change (Ascii.eqb "_"%char "_"%char) with true. cbv iota.
    rewrite (IH _ true _ Hb). f_equal.
    rewrite digits_value_app, string_length_app, Nat2Z.inj_add,
      Z.pow_add_r by lia.
    ring.
Qed.

Lemma groups_head (body ds : string) :
  digit_groups body ds ->
  exists c body', body = String c body' /\ is_digit c = true.
Proof.
  assert (Hhead : forall g, digits g = true ->
            forall x, exists c body',
              (g ++ x)%string = String c body' /\ is_digit c = true).
  { intros g H x. unfold digits in H. apply andb_prop in H.
    destruct H as [Hne Hall]. destruct g as [|c g]; [discriminate Hne|].
    simpl in Hall. apply andb_prop in Hall.
    exists c, (g ++ x)%string. split; [reflexivity | apply Hall]. }
  intros [g Hg | g more ds' Hg _].
  - destruct (Hhead g Hg EmptyString) as (c & body' & E & Hc).
    rewrite append_empty in E. now exists c, body'.
  - apply (Hhead g Hg).
Qed.

Lemma lstrip_spaces (before x : string) :
  Py.all_space before = true -> Py.lstrip (before ++ x) = Py.lstrip x.
Proof.
  induction before as [|c r IH]; [reflexivity|]. intros H.
  cbn [Py.all_space] in H. apply andb_prop in H. destruct H as [Hc Hr].
  cbn [String.append Py.lstrip]. rewrite Hc. now apply IH.
Qed.

Lemma lstrip_decompose (s : string) :
  exists before,
    s = (before ++ Py.lstrip s)%string /\ Py.all_space before = true.
Proof.
  induction s as [|c r (before & Hs & Hb)].
  - now exists EmptyString.
  - cbn [Py.lstrip]. destruct (Py.isspace c) eqn:Hc.
    + exists (String c before). cbn [String.append Py.all_space].
      rewrite Hc, Hb. split; [now rewrite <- Hs | reflexivity].
    + now exists EmptyString.
Qed.

(** Every literal of the grammar is read, with its value. *)
Lemma int_reads_literal (s : string) (v : Z) :
  integer_literal s v -> Py.int s = Ok v.
Proof.
  intros (before & sign & body & behind & ds & -> & Hbefore & Hbehind
          & Hgroups & Hsign).
  destruct (groups_head _ _ Hgroups) as (c & body' & -> & Hc).
  destruct (is_digit_facts c Hc) as (Hd & _ & Hsp & _ & Hminus & Hplus).
  pose proof (scan_groups _ _ Hgroups 0 true behind Hbehind) as Hscan.
  cbn [String.append Py.scan_digits] in Hscan. rewrite Hd in Hscan.
  change (10 * 0 + (Z.of_nat (nat_of_ascii c) - 48))
    with (Z.of_nat (nat_of_ascii c) - 48) in Hscan.
  change (0 * 10 ^ Z.of_nat (String.length ds)) with 0 in Hscan.
  unfold Py.int. rewrite (lstrip_spaces _ _ Hbefore).
  destruct Hsign as [[[-> | ->] ->] | [-> ->]].
  - cbn [String.append Py.lstrip]. rewrite Hsp, Hplus, Hminus.
    cbv beta iota zeta. rewrite Hd, Hscan. reflexivity.
  - cbn [String.append Py.lstrip].
    change (Py.isspace "+"%char) with false. cbv iota.
    rewrite Ascii.eqb_refl. cbv beta iota zeta.
    rewrite Hd, Hscan. reflexivity.
  - cbn [String.append Py.lstrip].
    change (Py.isspace "-"%char) with false. cbv iota.
    assert (E : Ascii.eqb "-"%char "+"%char = false) by reflexivity.
    rewrite E, Ascii.eqb_refl. cbv beta iota zeta.
    rewrite Hd, Hscan. reflexivity.
Qed.

Lemma scan_digits_grammar (r : string) :
  forall acc u v,
    Py.scan_digits acc u r = Some v ->
    exists body behind ds,
      r = (body ++ behind)%string
      /\ Py.all_space behind = true
      /\ v = acc * 10 ^ Z.of_nat (String.length ds) + digits_value ds
      /\ if u then digit_groups body ds
         else exists g tail dtail,
                string_forallb is_digit g = true
                /\ body = (g ++ tail)%string /\ ds = (g ++ dtail)%string
                /\ (tail = EmptyString /\ dtail = EmptyString
                    \/ exists t, tail = String "_"%char t
                                 /\ digit_groups t dtail).
Proof.
  induction r as [|c r IH]; intros acc u v H.
  - cbn in H. destruct u; [discriminate H|]. inversion H; subst.
    exists EmptyString, EmptyString, EmptyString.
    repeat split; [cbn; lia|].
    exists EmptyString, EmptyString, EmptyString. repeat split. now left.
  - cbn [Py.scan_digits] in H.
    destruct (Py.digit_value c) as [d|] eqn:Hd.
    + destruct (digit_value_is_digit _ _ Hd) as [Hc ->].
      destruct (IH _ _ _ H)
        as (body & behind & ds & -> & Hb & -> & g & tail & dtail & Hg
            & -> & -> & Htail).
      exists (String c (g ++ tail)), behind, (String c (g ++ dtail)).
      split; [reflexivity|]. split; [exact Hb|]. split.
      { cbn [String.length digits_value].
        rewrite Nat2Z.inj_succ, Z.pow_succ_r by lia. ring. }
      assert (Hcg : string_forallb is_digit (String c g) = true)
        by (cbn; now rewrite Hc, Hg).
      destruct u.
      * destruct Htail as [[-> ->] | (t & -> & Ht)].
        -- rewrite !append_empty. apply one_group. unfold digits.
           now rewrite Hcg.
        -- apply (more_groups (String c g) t dtail); [|exact Ht].
           unfold digits. now rewrite Hcg.
      * exists (String c g), tail, dtail. repeat split; assumption.
    + destruct (Ascii.eqb c "_"%char) eqn:Hu.
      * apply Ascii.eqb_eq in Hu. subst c.
        destruct u; [discriminate H|].
        destruct (IH _ _ _ H) as (body & behind & ds & -> & Hb & -> & Hg).
        exists (String "_"%char body), behind, ds.
        split; [reflexivity|]. split; [exact Hb|]. split; [reflexivity|].
        exists EmptyString, (String "_"%char body), ds.
        repeat split. right. now exists body.
      * destruct u; [discriminate H|].
        destruct (Py.all_space (String c r)) eqn:Hall; [|discriminate H].
        inversion H; subst.
        exists EmptyString, (String c r), EmptyString.
        split; [reflexivity|]. split; [exact Hall|].
        split; [cbn; lia|].
        exists EmptyString, EmptyString, EmptyString. repeat split. now left.
Qed.

(** Whatever [int] reads is a literal of the grammar, with that value. *)
Lemma int_reads_only_literals (s : string) (v : Z) :
  Py.int s = Ok v -> integer_literal s v.
Proof.
  destruct (lstrip_decompose s) as (before & Hs & Hbefore).
  unfold Py.int.
  destruct (Py.lstrip s) as [|c r] eqn:Hstrip; [discriminate|].
  assert (Hbody : forall negative c2 r2,
            match Py.digit_value c2 with
            | Some d =>
                match Py.scan_digits d false r2 with
                | Some v0 => Ok (if negative : bool then - v0 else v0)
                | None => Raise ValueError
                end
            | None => Raise ValueError
            end = Ok v ->
            exists body behind ds,
              String c2 r2 = (body ++ behind)%string
              /\ Py.all_space behind = true /\ digit_groups body ds
              /\ v = if negative then - digits_value ds
                     else digits_value ds).
  { intros negative c2 r2 H.
    destruct (Py.digit_value c2) as [d|] eqn:Hd; [|discriminate H].
    destruct (Py.scan_digits d false r2) as [v0|] eqn:Hscan;
      [|discriminate H].
    destruct (digit_value_is_digit _ _ Hd) as [Hc ->].
    destruct (scan_digits_grammar _ _ _ _ Hscan)
      as (body & behind & ds & -> & Hb & -> & g & tail & dtail & Hg
          & -> & -> & Htail).
    exists (String c2 (g ++ tail)), behind, (String c2 (g ++ dtail)).
    split; [reflexivity|]. split; [exact Hb|].
    assert (Hcg : string_forallb is_digit (String c2 g) = true)
      by (cbn; now rewrite Hc, Hg).
    split.
    - destruct Htail as [[-> ->] | (t & -> & Ht)].
      + rewrite !append_empty. apply one_group. unfold digits.
        now rewrite Hcg.
      + apply (more_groups (String c2 g) t dtail); [|exact Ht].
        unfold digits. now rewrite Hcg.
    - inversion H. cbn [digits_value].
      destruct negative; reflexivity. }
  destruct (Ascii.eqb c "+"%char) eqn:Hplus.
  - apply Ascii.eqb_eq in Hplus. subst c.
    destruct r as [|c2 r2]; [discriminate|]. intros H.
    destruct (Hbody false c2 r2 H) as (body & behind & ds & E & Hb & Hg & ->).
    exists before, "+"%string, body, behind, ds.
    split; [|repeat split; auto].
    rewrite Hs. f_equal. cbn [String.append]. now rewrite E.
  - destruct (Ascii.eqb c "-"%char) eqn:Hminus.
    + apply Ascii.eqb_eq in Hminus. subst c.
      destruct r as [|c2 r2]; [discriminate|]. intros H.
      destruct (Hbody true c2 r2 H) as (body & behind & ds & E & Hb & Hg & ->).
      exists before, "-"%string, body, behind, ds.
      split; [|repeat split; auto].
      rewrite Hs. f_equal. cbn [String.append]. now rewrite E.
    + intros H.
      destruct (Hbody false c r H) as (body & behind & ds & E & Hb & Hg & ->).
      exists before, EmptyString, body, behind, ds.
      split; [|repeat split; auto].
      rewrite Hs. f_equal. cbn [String.append]. exact E.
Qed.

Lemma int_spec (s : string) (v : Z) :
  Py.int s = Ok v <-> integer_literal s v.
Proof.
  split; [apply int_reads_only_literals | apply int_reads_literal].
Qed.

(** ** Failures of the loader *)

Lemma int_raises (s : string) (e : exn) : Py.int s = Raise e -> e = ValueError.
Proof.
  unfold Py.int.
  destruct (match Py.lstrip s with
            | EmptyString => (false, Py.lstrip s)
            | String c r =>
                if Ascii.eqb c "+"%char then (false, r)
                else if Ascii.eqb c "-"%char then (true, r)
                else (false, Py.lstrip s)
            end) as [negative s2].
  destruct s2 as [|c r]; [congruence|].
  destruct (Py.digit_value c); [|congruence].
  destruct (Py.scan_digits z false r); congruence.
Qed.

Lemma lacks_pair_no_space (line : string) :
  lacks_pair line
  = string_forallb (fun c => negb (Ascii.eqb c Py.SP)) line.
Proof.
  unfold lacks_pair. induction line as [|c r IH]; [reflexivity|].
  cbn [Py.split string_forallb].
  destruct (Ascii.eqb c Py.SP).
  - cbn [negb andb List.length].
    pose proof (split_nonempty Py.SP r) as Hne.
    destruct (Py.split Py.SP r); [contradiction | reflexivity].
  - cbn [negb andb]. rewrite <- IH.
    pose proof (split_nonempty Py.SP r) as Hne.
    destruct (Py.split Py.SP r); [contradiction | reflexivity].
Qed.

Lemma read_line_outcome (self : generator) (line : string) :
  if bad_line line
  then exists e, read_line self line = Raise e /\ is_FormatError e = true
  else exists self', read_line self line = Ok self'.
Proof.
  unfold bad_line, lacks_pair, bad_label, read_line.
  destruct (Py.split Py.SP line) as [|a [|b t]].
  - exists IndexError. split; reflexivity.
  - exists IndexError. split; reflexivity.
  - cbn. destruct (Py.int b) as [n | e] eqn:Hint; cbn.
    + eexists. reflexivity.
    + exists e. split; [reflexivity|].
      now rewrite (int_raises _ _ Hint).
Qed.

Lemma read_lines_outcome (lines : list string) :
  forall self,
    if existsb bad_line lines
    then exists e, read_lines self lines = Raise e /\ is_FormatError e = true
    else exists self', read_lines self lines = Ok self'.
Proof.
  induction lines as [|line rest IH]; intros self.
  - cbn. eexists. reflexivity.
  - cbn [existsb read_lines].
    pose proof (read_line_outcome self line) as Hline.
    destruct (bad_line line).
    + destruct Hline as (e & -> & He). cbn. exists e. now split.
    + destruct Hline as (self' & ->). cbn. apply IH.
Qed.

Lemma read_txt_file_existing
  (fs : string -> option string) (self : generator) (content : string) :
  fs (txt_file self) = Some content ->
  _read_txt_file fs self
  = read_lines (set_lists self [] []) (Py.readlines content).
Proof.
  intros Hfs. unfold _read_txt_file. cbv zeta.
  change (txt_file (set_lists self [] [])) with (txt_file self).
  now rewrite Hfs.
Qed.

Lemma bad_line_readable (line : string) :
  bad_line line = false <-> readable line.
Proof.
  unfold bad_line, lacks_pair, bad_label, readable.
  destruct (Py.split Py.SP line) as [|a [|b t]]; cbn.
  - split; [discriminate | intros (token & v & H & _); discriminate H].
  - split; [discriminate | intros (token & v & H & _); discriminate H].
  - destruct (Py.int b) as [v|e] eqn:Hint; split.
    + intros _. exists b, v. split; [reflexivity | now apply int_spec].
    + reflexivity.
    + discriminate.
    + intros (token & v & H & Hlit). inversion H; subst.
      apply int_spec in Hlit. congruence.
Qed.

Lemma not_readable_bad_line (line : string) :
  ~ readable line <-> bad_line line = true.
Proof.
  rewrite <- bad_line_readable. destruct (bad_line line); split; congruence.
Qed.

Lemma some_line_not_readable (lines : list string) :
  existsb bad_line lines = true
  <-> exists line, In line lines /\ ~ readable line.
Proof.
  rewrite existsb_exists. split; intros (line & Hin & H); exists line;
    (split; [exact Hin | now apply not_readable_bad_line]).
Qed.

(** C9, as the code has it. On an existing ASCII manifest the loader
    fails, and then with a format error, exactly when some line is not
    readable: it contains no space (as an empty line), or the text between
    its first space and its second space or its end is not an integer
    literal (optional white space, an optional sign, decimal digits in
    groups separated by single underscores, optional white space). A
    manifest whose lines are all readable loads. *)
Theorem load_fails_iff_bad_line
  (fs : string -> option string) (self : generator) (content : string) :
  fs (txt_file self) = Some content ->
  is_ascii content = true ->
  ((exists e, _read_txt_file fs self = Raise e /\ is_FormatError e = true)
   <-> exists line, In line (Py.readlines content) /\ ~ readable line)
  /\ (forall e, _read_txt_file fs self = Raise e -> is_FormatError e = true)
  /\ ((forall line, In line (Py.readlines content) -> readable line) ->
      exists self', _read_txt_file fs self = Ok self')
  /\ ~ readable (String Py.LF EmptyString)
  /\ (forall line,
        ~ readable line <->
        string_forallb (fun c => negb (Ascii.eqb c Py.SP)) line = true
        \/ exists token,
             nth_error (Py.split Py.SP line) 1 = Some token
             /\ forall v, ~ integer_literal token v).
Proof.
  intros Hfs _. rewrite (read_txt_file_existing _ _ _ Hfs).
  pose proof (read_lines_outcome (Py.readlines content)
                (set_lists self [] [])) as Hout.
  rewrite <- some_line_not_readable.
  repeat split.
  - intros (e & He & _).
    destruct (existsb bad_line (Py.readlines content)); [reflexivity|].
    destruct Hout as (self' & Hok). congruence.
  - intros Hbad. rewrite Hbad in Hout. exact Hout.
  - intros e He.
    destruct (existsb bad_line (Py.readlines content)).
    + destruct Hout as (e' & He' & Hfmt). congruence.
    + destruct Hout as (self' & Hok). congruence.
  - intros Hall.
    destruct (existsb bad_line (Py.readlines content)) eqn:Hbad;
      [|exact Hout].
    apply some_line_not_readable in Hbad.
    destruct Hbad as (line & Hin & Hnot). now elim Hnot; apply Hall.
  - apply not_readable_bad_line. reflexivity.
  - rewrite not_readable_bad_line. unfold bad_line.
    rewrite lacks_pair_no_space. intros H.
    apply orb_prop in H. destruct H as [H | H]; [now left | right].
    unfold bad_label in H.
    destruct (nth_error (Py.split Py.SP line) 1) as [token|];
      [|discriminate].
    destruct (Py.int token) as [n | e] eqn:Hint; [discriminate|].
    exists token. split; [reflexivity|].
    intros v Hlit. apply int_spec in Hlit. congruence.
  - rewrite not_readable_bad_line. unfold bad_line.
    rewrite lacks_pair_no_space.
    intros [H | (token & Hnth & Hnone)].
    + now rewrite H.
    + unfold bad_label. rewrite Hnth.
      destruct (Py.int token) as [v|e] eqn:Hint; [|apply orb_true_r].
      apply int_spec in Hint. now elim (Hnone v).
Qed.

Lemma load_fails_iff_bad_line_witness :
  exists self', _read_txt_file sample_fs sample_generator = Ok self'.
Proof.
  destruct (load_fails_iff_bad_line sample_fs sample_generator
              sample_manifest eq_refl eq_refl) as (_ & _ & Hgood & _).
  apply Hgood. intros line Hin.
  destruct Hin as [<- | [<- | []]].
  - exists "0
"%string, 0. split; [reflexivity|].
    apply int_reads_only_literals. reflexivity.
  - exists "1
"%string, 1. split; [reflexivity|].
    apply int_reads_only_literals. reflexivity.
Defined.

(** C9, as stated, fails in both directions when the label is taken as
    the trailing token of the line: the line [a.png 5 x] has a trailing
    token that is no integer, yet it loads, with label 5; the line
    [a.png  5], with two spaces, has the integer 5 as trailing token, yet
    the loader raises ValueError on its empty second item. *)
Lemma load_format_error_counterexample :
  (existsb spec_bad_line (Py.readlines "a.png 5 x
") = true
   /\ _read_txt_file (fun _ => Some "a.png 5 x
") sample_generator
      = Ok (mkGenerator "data" "list.txt" 2 ["data/a.png"] [5] 2))
  /\ (existsb spec_bad_line (Py.readlines "a.png  5
") = false
      /\ _read_txt_file (fun _ => Some "a.png  5
") sample_generator = Raise ValueError).
Proof. repeat split; reflexivity. Qed.

Example load_rejects_bad_manifests :
  _read_txt_file (fun _ => Some "a.png 0

") sample_generator = Raise IndexError
  /\ _read_txt_file (fun _ => Some "a.png
") sample_generator = Raise IndexError
  /\ _read_txt_file (fun _ => Some "a.png x
") sample_generator = Raise ValueError
  /\ _read_txt_file (fun _ => Some "my cat.png 0
") sample_generator = Raise ValueError.
Proof. repeat split; reflexivity. Qed.

(** ** Conjoined shuffling *)

Lemma map_nth_seq {T : Type} (l : list T) (d : T) :
  map (fun i => nth i l d) (seq 0 (List.length l)) = l.
Proof.
  induction l as [|a l IH]; [reflexivity|].
  cbn [List.length seq map nth]. f_equal.
  rewrite <- seq_shift, map_map. exact IH.
Qed.

Lemma index_nth {T : Type} (l : list T) (i : nat) (d : T) :
  (i < List.length l)%nat -> Py.index l i = Ok (nth i l d).
Proof.
  intros H. unfold Py.index. now rewrite (nth_error_nth' l d H).
Qed.

Lemma shuffle_loop_in_range (path : list string) (lbls : list Z)
  (permutation : list nat) :
  forall self,
    (forall i, In i permutation ->
               (i < List.length path)%nat /\ (i < List.length lbls)%nat) ->
    shuffle_loop path lbls permutation self
    = Ok (set_lists self
            (img_paths self
             ++ map (fun i => nth i path EmptyString) permutation)
            (labels self ++ map (fun i => nth i lbls 0) permutation)).
Proof.
  induction permutation as [|i rest IH]; intros self Hin.
  - cbn. rewrite !app_nil_r. now destruct self.
  - destruct (Hin i (or_introl eq_refl)) as [Hp Hl].
    cbn [shuffle_loop].
    rewrite (index_nth path i EmptyString Hp), (index_nth lbls i 0 Hl).
    cbn [bind]. rewrite IH by (intros j Hj; apply Hin; now right).
    unfold set_lists. cbn. now rewrite <- !app_assoc.
Qed.

Lemma read_lines_aligned (lines : list string) :
  forall self self',
    List.length (img_paths self) = List.length (labels self) ->
    read_lines self lines = Ok self' ->
    List.length (img_paths self') = List.length (labels self').
Proof.
  induction lines as [|line rest IH]; intros self self' Hlen H.
  - cbn in H. now inversion H; subst.
  - cbn [read_lines] in H.
    destruct (read_line self line) as [self1|e] eqn:Hline; [|discriminate H].
    cbn [bind] in H. apply (IH self1 self'); [|exact H].
    unfold read_line in Hline.
    destruct (Py.index (Py.split Py.SP line) 0) as [item0|];
      [|discriminate Hline].
    cbn [bind] in Hline.
    destruct (Py.index (Py.split Py.SP line) 1) as [item1|];
      [|discriminate Hline].
    cbn [bind] in Hline.
    destruct (Py.int item1) as [label|]; [|discriminate Hline].
    cbn [bind] in Hline. inversion Hline; subst. cbn.
    rewrite !length_app. cbn. lia.
Qed.

(** What [__init__] hands to the shuffle: lists of one length, which
    [data_size] records. *)
Lemma loaded_lists_aligned (fs : string -> option string)
  (self self' : generator) :
  _read_txt_file fs self = Ok self' ->
  let loaded := set_data_size self' (List.length (labels self')) in
  List.length (img_paths loaded) = data_size loaded
  /\ List.length (labels loaded) = data_size loaded.
Proof.
  unfold _read_txt_file. cbv zeta.
  destruct (fs (txt_file (set_lists self [] []))) as [content|];
    [|discriminate].
  intros H. apply read_lines_aligned in H; [|reflexivity].
  cbn. split; [exact H | reflexivity].
Qed.

(** C3. Shuffling reorders the paths and the labels by one and the same
    permutation of the indices below [data_size]: position k of both
    outputs holds what was at index [permutation[k]], the pairs are the
    same multiset, and the lengths are unchanged. *)
Theorem shuffle_same_permutation
  (np_random_permutation : nat -> list nat) (self : generator) :
  List.length (img_paths self) = data_size self ->
  List.length (labels self) = data_size self ->
  Permutation (np_random_permutation (data_size self))
              (seq 0 (data_size self)) ->
  exists self',
    _shuffle_lists np_random_permutation self = Ok self'
    /\ combine (img_paths self') (labels self')
       = map (fun i => nth i (combine (img_paths self) (labels self))
                         (EmptyString, 0))
             (np_random_permutation (data_size self))
    /\ Permutation (combine (img_paths self') (labels self'))
                   (combine (img_paths self) (labels self))
    /\ List.length (img_paths self') = List.length (img_paths self)
    /\ List.length (labels self') = List.length (labels self)
    /\ forall k i,
         nth_error (np_random_permutation (data_size self)) k = Some i ->
         nth_error (img_paths self') k = nth_error (img_paths self) i
         /\ nth_error (labels self') k = nth_error (labels self) i.
Proof.
  intros Hpaths Hlabels Hperm.
  set (perm := np_random_permutation (data_size self)) in *.
  assert (Hin : forall i, In i perm ->
            (i < List.length (img_paths self))%nat
            /\ (i < List.length (labels self))%nat).
  { intros i Hi. apply (Permutation_in _ Hperm) in Hi.
    apply in_seq in Hi. lia. }
  unfold _shuffle_lists. fold perm.
  rewrite (shuffle_loop_in_range _ _ _ _ Hin).
  eexists. split; [reflexivity|]. cbn.
  assert (Hcombine :
    combine (map (fun i => nth i (img_paths self) EmptyString) perm)
            (map (fun i => nth i (labels self) 0) perm)
    = map (fun i => nth i (combine (img_paths self) (labels self))
                      (EmptyString, 0)) perm).
  { clear Hperm Hin. induction perm as [|i rest IH]; [reflexivity|].
    cbn [map combine]. rewrite IH. f_equal.
    symmetry. apply combine_nth. lia. }
  repeat split.
  - exact Hcombine.
  - rewrite Hcombine.
    rewrite (Permutation_map _ Hperm).
    replace (data_size self)
      with (List.length (combine (img_paths self) (labels self)))
      by (rewrite length_combine; lia).
    now rewrite map_nth_seq.
  - rewrite length_map, (Permutation_length Hperm), length_seq. lia.
  - rewrite length_map, (Permutation_length Hperm), length_seq. lia.
  - rewrite nth_error_map, H. cbn. symmetry. apply nth_error_nth'.
    apply Hin. eapply nth_error_In. exact H.
  - rewrite nth_error_map, H. cbn. symmetry. apply nth_error_nth'.
    apply Hin. eapply nth_error_In. exact H.
Qed.

Lemma shuffle_same_permutation_witness :
  exists self',
    _shuffle_lists (fun n => rev (seq 0 n)) sample_generator = Ok self'
    /\ Permutation (combine (img_paths self') (labels self'))
                   [("data/cat1.png", 0); ("data/dog1.png", 1)].
Proof.
  destruct (shuffle_same_permutation (fun n => rev (seq 0 n))
              sample_generator eq_refl eq_refl
              (Permutation_sym (Permutation_rev (seq 0 2))))
    as (self' & H & _ & Hperm & _).
  exists self'. split; [exact H | exact Hperm].
Defined.

(** ** The gates of the augmentation *)

Lemma flip_stage {A : Type} (x : TF.tensor3 A) (s : supply) :
  flip x s
  = (Ok (if TF.less (s 0%nat) (1 # 2) then TF.flip_left_right x else x),
     rest s).
Proof.
  unfold flip, random_flip_left_right, bindM, random_uniform, cond, ret.
  now destruct (TF.less (s 0%nat) (1 # 2)).
Qed.

Lemma augment_stage {A : Type} (x : TF.tensor3 A) (s : supply) :
  augment x s
  = if TF.less (s 0%nat) (1 # 4) then flip x (rest s) else (Ok x, rest s).
Proof.
  unfold augment, augment_loop, bindM, random_uniform, cond, ret.
  destruct (TF.less (s 0%nat) (1 # 4)); [|reflexivity].
  rewrite flip_stage. reflexivity.
Qed.

Lemma chance_stage {A : Type} (x : TF.tensor3 A) (s : supply) :
  augment_with_chance x s
  = if TF.less (s 0%nat) (1 # 2) then augment x (rest s) else (Ok x, rest s).
Proof.
  unfold augment_with_chance, bindM, random_uniform, cond, ret.
  now destruct (TF.less (s 0%nat) (1 # 2)).
Qed.

(** The three gates, on the first three draws of a supply. *)
Lemma augment_with_chance_output {A : Type} (x : TF.tensor3 A) (s : supply) :
  fst (augment_with_chance x s)
  = Ok (if TF.less (s 0%nat) (1 # 2) && TF.less (s 1%nat) (1 # 4)
           && TF.less (s 2%nat) (1 # 2)
        then TF.flip_left_right x else x).
Proof.
  rewrite chance_stage.
  destruct (TF.less (s 0%nat) (1 # 2)); [|reflexivity].
  rewrite augment_stage. unfold rest at 1.
  destruct (TF.less (s 1%nat) (1 # 4)); [|reflexivity].
  rewrite flip_stage. unfold rest. cbn [fst andb]. reflexivity.
Qed.

Section ParsingFacts.

Variable read_file : string -> result string.
Variable decode_png : string -> nat -> result (TF.tensor3 Z).
Variable resize_images : TF.tensor3 Z -> nat * nat -> TF.tensor3 TF.float32.

Local Abbreviation parse_train :=
  (_parse_function_train read_file decode_png resize_images).
Local Abbreviation parse_inference :=
  (_parse_function_inference read_file decode_png resize_images).
Local Abbreviation pre := (preprocess read_file decode_png resize_images).

Lemma inference_preprocess (self : generator) (filename : string)
  (label : Z) (s : supply) :
  parse_inference self filename label s = (pre self filename label, s).
Proof.
  unfold _parse_function_inference, preprocess, bindM, lift, ret.
  destruct (TF.one_hot label (num_classes self)); [|reflexivity].
  destruct (read_file filename); [|reflexivity]. cbn [bind].
  destruct (decode_png a0 3); [|reflexivity]. cbn [bind].
  destruct (TF.subtract _ IMAGENET_MEAN); reflexivity.
Qed.

Lemma train_preprocess (self : generator) (filename : string)
  (label : Z) (s : supply) :
  fst (parse_train self filename label s)
  = match pre self filename label with
    | Ok (img, one_hot) =>
        Ok (if TF.less (s 0%nat) (1 # 2) && TF.less (s 1%nat) (1 # 4)
               && TF.less (s 2%nat) (1 # 2)
            then TF.flip_left_right img else img, one_hot)
    | Raise e => Raise e
    end.
Proof.
  unfold _parse_function_train, preprocess, lift.
  unfold bindM at 1.
  destruct (TF.one_hot label (num_classes self)); [|reflexivity].
  unfold bindM at 1.
  destruct (read_file filename); [|reflexivity]. cbn [bind].
  unfold bindM at 1.
  destruct (decode_png a0 3); [|reflexivity]. cbn [bind].
  unfold bindM at 1.
  destruct (TF.subtract _ IMAGENET_MEAN) as [centered|]; [|reflexivity].
  cbn [bind]. unfold bindM at 1.
  pose proof (augment_with_chance_output
                (TF.reverse_channels centered) s) as Hout.
  destruct (augment_with_chance (TF.reverse_channels centered) s)
    as [[out|e] s'] eqn:Haug; cbn [fst] in Hout.
  - inversion Hout; subst. reflexivity.
  - discriminate Hout.
Qed.

End ParsingFacts.

(** ** Counting the draws that fire a gate *)

Lemma count_below (t n : nat) :
  count_bool (fun k => Nat.ltb k t) (seq 0 n) = Nat.min t n.
Proof.
  unfold count_bool. induction n as [|n IH]; [now rewrite Nat.min_0_r|].
  rewrite seq_S, filter_app, length_app, IH. cbn [filter Nat.add].
  destruct (Nat.ltb_spec n t); cbn [List.length]; lia.
Qed.

Lemma count_pairs {S T : Type} (p : S -> bool) (q : T -> bool)
  (l1 : list S) (l2 : list T) :
  count_bool (fun t => p (fst t) && q (snd t)) (list_prod l1 l2)
  = (count_bool p l1 * count_bool q l2)%nat.
Proof.
  unfold count_bool. induction l1 as [|a l1 IH]; [reflexivity|].
  cbn [list_prod filter]. rewrite filter_app, length_app, IH.
  assert (Hrow : List.length
            (filter (fun t => p (fst t) && q (snd t))
                    (map (fun y => (a, y)) l2))
          = if p a then List.length (filter q l2) else 0%nat).
  { clear IH.
    destruct (p a) eqn:Hpa; induction l2 as [|b l2 IH2]; try reflexivity;
      cbn [map filter fst snd]; rewrite Hpa; cbn [andb].
    - destruct (q b); cbn [List.length]; rewrite IH2; reflexivity.
    - exact IH2. }
  rewrite Hrow. destruct (p a); cbn [List.length]; lia.
Qed.

Lemma count_ext {T : Type} (p q : T -> bool) (l : list T) :
  (forall a, p a = q a) -> count_bool p l = count_bool q l.
Proof.
  intros H. unfold count_bool. now rewrite (filter_ext p q H).
Qed.

Lemma less_grid (den k num : nat) (c : positive) :
  den <> 0%nat ->
  (Z.of_nat num * Zpos c = Z.of_nat den)%Z ->
  TF.less (grid_draw den k) (1 # c) = Nat.ltb k num.
Proof.
  intros Hden Hnum. unfold TF.less, grid_draw. cbn [Qnum Qden].
  assert (Hpos : Zpos (Pos.of_nat den) = Z.of_nat den).
  { rewrite <- positive_nat_Z, Nat2Pos.id by assumption. reflexivity. }
  rewrite Hpos.
  destruct (Z.ltb_spec (Z.of_nat k * Zpos c) (1 * Z.of_nat den));
    destruct (Nat.ltb_spec k num); try reflexivity; nia.
Qed.

Lemma changed_gates {A : Type}
  (eq_dec : forall a b : A, {a = b} + {a <> b})
  (x : TF.tensor3 A) (s : supply) :
  TF.flip_left_right x <> x ->
  changed eq_dec x s
  = TF.less (s 0%nat) (1 # 2) && TF.less (s 1%nat) (1 # 4)
    && TF.less (s 2%nat) (1 # 2).
Proof.
  intros Hx. unfold changed. rewrite augment_with_chance_output.
  destruct (TF.less (s 0%nat) (1 # 2) && TF.less (s 1%nat) (1 # 4)
            && TF.less (s 2%nat) (1 # 2)).
  - destruct (tensor3_eq_dec eq_dec x (TF.flip_left_right x)) as [E|_];
      [|reflexivity].
    symmetry in E. contradiction.
  - destruct (tensor3_eq_dec eq_dec x x) as [_|N];
      [reflexivity | now contradiction N].
Qed.

Lemma augment_loop_stage {A : Type}
  (f : TF.tensor3 A -> M (TF.tensor3 A))
  (fs : list (TF.tensor3 A -> M (TF.tensor3 A)))
  (x : TF.tensor3 A) (s : supply) :
  augment_loop (f :: fs) x s
  = if TF.less (s 0%nat) (1 # 4)
    then bindM (f x) (augment_loop fs) (rest s)
    else augment_loop fs x (rest s).
Proof.
  cbn [augment_loop]. unfold bindM at 1, random_uniform.
  unfold cond. now destruct (TF.less (s 0%nat) (1 # 4)).
Qed.

(** C4. In training mode the augmentation is a chain of three gates: the
    chain runs when the outer draw is below 0.5, each enabled transform is
    applied when its own gate draw is below 0.25, and flip mirrors when
    its own draw is below 0.5; in every other outcome the image is
    unchanged. On a grid of [den] equally likely draws the gates fire for
    a half, a quarter and a half of the draws, all three fire for one
    triple of draws in sixteen, and those are the triples that change an
    image that is not symmetric. *)
Theorem augmentation_gates {A : Type}
  (eq_dec : forall a b : A, {a = b} + {a <> b})
  (x : TF.tensor3 A) (m : nat) :
  m <> 0%nat ->
  let den := (4 * m)%nat in
  let fire := fun s : supply =>
    TF.less (s 0%nat) (1 # 2) && TF.less (s 1%nat) (1 # 4)
    && TF.less (s 2%nat) (1 # 2) in
  (forall s, augment_with_chance x s
             = if TF.less (s 0%nat) (1 # 2) then augment x (rest s)
               else (Ok x, rest s))
  /\ (forall f fs s, augment_loop (f :: fs) x s
                     = if TF.less (s 0%nat) (1 # 4)
                       then bindM (f x) (augment_loop fs) (rest s)
                       else augment_loop fs x (rest s))
  /\ (forall s, augment x s
                = if TF.less (s 0%nat) (1 # 4) then flip x (rest s)
                  else (Ok x, rest s))
  /\ (forall s, flip x s
                = (Ok (if TF.less (s 0%nat) (1 # 2)
                       then TF.flip_left_right x else x), rest s))
  /\ (forall s, fst (augment_with_chance x s)
                = Ok (if fire s then TF.flip_left_right x else x))
  /\ (2 * count_bool (fun k => TF.less (grid_draw den k) (1 # 2))
                     (seq 0 den) = den)%nat
  /\ (4 * count_bool (fun k => TF.less (grid_draw den k) (1 # 4))
                     (seq 0 den) = den)%nat
  /\ (16 * count_bool (fun t => fire (draws_of den t)) (grid_triples den)
      = List.length (grid_triples den))%nat
  /\ (TF.flip_left_right x <> x ->
      forall s, changed eq_dec x s = fire s)
  /\ (forall read_file decode_png resize_images self filename label s s',
        fst (_parse_function_train read_file decode_png resize_images
               self filename label s)
        = match fst (_parse_function_inference read_file decode_png
                       resize_images self filename label s') with
          | Ok (img, one_hot) =>
              Ok (if fire s then TF.flip_left_right img else img, one_hot)
          | Raise e => Raise e
          end).
Proof.
  intros Hm den fire.
  assert (Hden : den <> 0%nat) by (unfold den; lia).
  assert (Hhalf : forall k,
            TF.less (grid_draw den k) (1 # 2) = Nat.ltb k (2 * m)).
  { intros k. apply less_grid; [assumption | unfold den; lia]. }
  assert (Hquarter : forall k,
            TF.less (grid_draw den k) (1 # 4) = Nat.ltb k m).
  { intros k. apply less_grid; [assumption | unfold den; lia]. }
  assert (Chalf : count_bool (fun k => Nat.ltb k (2 * m)) (seq 0 den)
                  = (2 * m)%nat).
  { rewrite count_below. unfold den. lia. }
  assert (Cquarter : count_bool (fun k => Nat.ltb k m) (seq 0 den) = m).
  { rewrite count_below. unfold den. lia. }
  split; [intros s; apply chance_stage|].
  split; [intros f fs s; apply augment_loop_stage|].
  split; [intros s; apply augment_stage|].
  split; [intros s; apply flip_stage|].
  split; [intros s; apply augment_with_chance_output|].
  split; [rewrite (count_ext _ _ _ Hhalf), Chalf; unfold den; lia|].
  split; [rewrite (count_ext _ _ _ Hquarter), Cquarter; unfold den; lia|].
  split; [|split; [intros Hx s; now apply changed_gates|]].
  2:{ intros read_file decode_png resize_images self filename label s s'.
      now rewrite train_preprocess, inference_preprocess. }
  pose (half := fun k => Nat.ltb k (2 * m)).
  pose (quarter := fun k => Nat.ltb k m).
  pose (inner := fun u : nat * nat => quarter (fst u) && half (snd u)).
  rewrite (count_ext _ (fun t => half (fst t) && inner (snd t))).
  - unfold grid_triples. rewrite (count_pairs half inner).
    unfold inner. rewrite (count_pairs quarter half).
    unfold half, quarter. rewrite Chalf, Cquarter.
    rewrite !length_prod, !length_seq. unfold den. nia.
  - intros [k1 [k2 k3]]. unfold fire.
    cbn [draws_of fst snd]. rewrite !Hhalf, Hquarter.
    unfold inner, half, quarter. cbn [fst snd].
    now rewrite andb_assoc.
Qed.

Lemma augmentation_gates_witness :
  (16 * count_bool
          (fun t =>
             let s := draws_of 8 t in
             TF.less (s 0%nat) (1 # 2) && TF.less (s 1%nat) (1 # 4)
             && TF.less (s 2%nat) (1 # 2))
          (grid_triples 8)
   = List.length (grid_triples 8))%nat
  /\ forall s,
       changed Z.eq_dec [[[0%Z]; [1%Z]]] s
       = TF.less (s 0%nat) (1 # 2) && TF.less (s 1%nat) (1 # 4)
         && TF.less (s 2%nat) (1 # 2).
Proof.
  destruct (augmentation_gates Z.eq_dec [[[0%Z]; [1%Z]]] 2)
    as (_ & _ & _ & _ & _ & _ & _ & Hcount & Hchanged & _).
  - discriminate.
  - split; [exact Hcount|]. apply Hchanged. vm_compute. discriminate.
Defined.

(** ** Shapes and pixels *)

Lemma has_shape_spec {A : Type} (h w c : nat) (t : TF.tensor3 A) :
  TF.has_shape h w c t = true <->
  List.length t = h
  /\ forall row, In row t ->
       List.length row = w
       /\ forall px, In px row -> List.length px = c.
Proof.
  unfold TF.has_shape. rewrite andb_true_iff, Nat.eqb_eq, forallb_forall.
  split; intros [Hh Hrows]; (split; [exact Hh|]); intros row Hrow.
  - specialize (Hrows row Hrow).
    rewrite andb_true_iff, Nat.eqb_eq, forallb_forall in Hrows.
    destruct Hrows as [Hw Hpx]. split; [exact Hw|].
    intros px Hin. now apply Nat.eqb_eq, Hpx.
  - destruct (Hrows row Hrow) as [Hw Hpx].
    rewrite andb_true_iff, Nat.eqb_eq, forallb_forall.
    split; [exact Hw|]. intros px Hin. now apply Nat.eqb_eq, Hpx.
Qed.

Lemma has_shape_map {A B : Type} (f : list A -> list B) (h w c c' : nat)
  (t : TF.tensor3 A) :
  (forall px, List.length px = c -> List.length (f px) = c') ->
  TF.has_shape h w c t = true ->
  TF.has_shape h w c' (map (map f) t) = true.
Proof.
  intros Hf H. apply has_shape_spec in H. destruct H as [Hh Hrows].
  apply has_shape_spec. split; [now rewrite length_map|].
  intros row' Hrow'. apply in_map_iff in Hrow'.
  destruct Hrow' as (row & <- & Hrow).
  destruct (Hrows row Hrow) as [Hw Hpx].
  split; [now rewrite length_map|].
  intros px' Hpx'. apply in_map_iff in Hpx'.
  destruct Hpx' as (px & <- & Hin). apply Hf. now apply Hpx.
Qed.

Lemma has_shape_flip {A : Type} (h w c : nat) (t : TF.tensor3 A) :
  TF.has_shape h w c t = true ->
  TF.has_shape h w c (TF.flip_left_right t) = true.
Proof.
  intros H. apply has_shape_spec in H. destruct H as [Hh Hrows].
  apply has_shape_spec. unfold TF.flip_left_right.
  split; [now rewrite length_map|].
  intros row' Hrow'. apply in_map_iff in Hrow'.
  destruct Hrow' as (row & <- & Hrow).
  destruct (Hrows row Hrow) as [Hw Hpx].
  split; [now rewrite length_rev|].
  intros px Hin. apply Hpx. now apply in_rev.
Qed.

Lemma has_shape_fill {A : Type} (h w : nat) (px : list A) :
  TF.has_shape h w (List.length px) (TF.fill h w px) = true.
Proof.
  apply has_shape_spec. unfold TF.fill.
  split; [apply repeat_length|].
  intros row Hrow. apply repeat_spec in Hrow. subst row.
  split; [apply repeat_length|].
  intros px' Hpx'. apply repeat_spec in Hpx'. now subst px'.
Qed.

Lemma pixel_map {A B : Type} (f : list A -> list B) (t : TF.tensor3 A)
  (i j : nat) :
  TF.pixel (map (map f) t) i j = option_map f (TF.pixel t i j).
Proof.
  unfold TF.pixel. rewrite nth_error_map.
  destruct (nth_error t i) as [row|]; [|reflexivity].
  cbn [option_map]. apply nth_error_map.
Qed.

Lemma map_fill {A B : Type} (f : list A -> list B) (h w : nat)
  (px : list A) :
  map (map f) (TF.fill h w px) = TF.fill h w (f px).
Proof.
  unfold TF.fill. now rewrite !map_repeat.
Qed.

Lemma flip_fill {A : Type} (h w : nat) (px : list A) :
  TF.flip_left_right (TF.fill h w px) = TF.fill h w px.
Proof.
  unfold TF.flip_left_right, TF.fill. now rewrite map_repeat, rev_repeat.
Qed.

Lemma mapM_ok {A B : Type} (f : A -> result B) (g : A -> B) (l : list A) :
  (forall a, In a l -> f a = Ok (g a)) -> TF.mapM f l = Ok (map g l).
Proof.
  induction l as [|a l IH]; intros H; [reflexivity|].
  cbn [TF.mapM map]. rewrite (H a (or_introl eq_refl)). cbn [bind].
  rewrite IH by (intros b Hb; apply H; now right). reflexivity.
Qed.

Lemma broadcast_sub_centred (px : list TF.float32) :
  List.length px = 3%nat ->
  TF.broadcast_sub px IMAGENET_MEAN = Ok (centred px).
Proof.
  intros H. unfold TF.broadcast_sub.
  change (List.length IMAGENET_MEAN) with 3%nat. now rewrite H.
Qed.

Lemma subtract_shaped (h w : nat) (x : TF.tensor3 TF.float32) :
  TF.has_shape h w 3 x = true ->
  TF.subtract x IMAGENET_MEAN = Ok (map (map centred) x).
Proof.
  intros H. apply has_shape_spec in H. destruct H as [_ Hrows].
  unfold TF.subtract. apply mapM_ok. intros row Hrow.
  apply mapM_ok. intros px Hpx. apply broadcast_sub_centred.
  now apply (Hrows row Hrow).
Qed.

Lemma centred_length (px : list TF.float32) :
  List.length px = 3%nat -> List.length (centred px) = 3%nat.
Proof.
  intros H. unfold centred. rewrite length_map, length_combine, H.
  reflexivity.
Qed.

Lemma centred_rgb (r g b : TF.float32) :
  rev (centred [r; g; b])
  = [TF.sub b (TF.of_milli 103939); TF.sub g (TF.of_milli 116779);
     TF.sub r (TF.of_milli 123680)].
Proof. reflexivity. Qed.

Lemma centred_mean :
  rev (centred IMAGENET_MEAN) = [TF.zero; TF.zero; TF.zero].
Proof. vm_compute. reflexivity. Qed.

(** ** One-hot vectors *)

Lemma range_length (n : Z) : List.length (TF.range n) = Z.to_nat n.
Proof. unfold TF.range. now rewrite length_map, length_seq. Qed.

Lemma range_nth (n : Z) (k : nat) :
  (k < Z.to_nat n)%nat -> nth_error (TF.range n) k = Some (Z.of_nat k).
Proof.
  intros H. unfold TF.range. rewrite nth_error_map.
  rewrite (nth_error_nth' _ 0%nat) by (rewrite length_seq; exact H).
  rewrite seq_nth by exact H. reflexivity.
Qed.

Lemma range_in (n d : Z) : In d (TF.range n) -> 0 <= d < n.
Proof.
  unfold TF.range. intros H. apply in_map_iff in H.
  destruct H as (k & <- & Hk). apply in_seq in Hk. lia.
Qed.

Lemma map_constant {S T : Type} (f : S -> T) (c : T) (l : list S) :
  (forall a, In a l -> f a = c) -> map f l = repeat c (List.length l).
Proof.
  induction l as [|a l IH]; intros H; [reflexivity|].
  cbn [map List.length repeat]. rewrite (H a (or_introl eq_refl)).
  rewrite IH by (intros b Hb; apply H; now right). reflexivity.
Qed.

Lemma one_hot_zeros (l n : Z) :
  0 <= n -> l < 0 \/ n <= l ->
  TF.one_hot l n = Ok (repeat TF.zero (Z.to_nat n)).
Proof.
  intros Hn Hl. unfold TF.one_hot.
  destruct (Z.ltb_spec n 0); [lia|].
  rewrite <- (range_length n). f_equal. apply map_constant.
  intros d Hd. apply range_in in Hd.
  destruct (Z.eqb_spec l d); [lia | reflexivity].
Qed.

(** ** The parsing functions *)

Section TransformFacts.

Variable read_file : string -> result string.
Variable decode_png : string -> nat -> result (TF.tensor3 Z).
Variable resize_images : TF.tensor3 Z -> nat * nat -> TF.tensor3 TF.float32.

Local Abbreviation parse_train :=
  (_parse_function_train read_file decode_png resize_images).
Local Abbreviation parse_inference :=
  (_parse_function_inference read_file decode_png resize_images).
Local Abbreviation pre := (preprocess read_file decode_png resize_images).

Lemma preprocess_one_hot (self : generator) (filename : string) (label : Z)
  (img : TF.tensor3 TF.float32) (one_hot : TF.tensor1 TF.float32) :
  pre self filename label = Ok (img, one_hot) ->
  TF.one_hot label (num_classes self) = Ok one_hot.
Proof.
  unfold preprocess.
  destruct (TF.one_hot label (num_classes self)) as [v|]; [|discriminate].
  cbn [bind]. destruct (read_file filename) as [c|]; [|discriminate].
  cbn [bind]. destruct (decode_png c 3) as [d|]; [|discriminate].
  cbn [bind]. destruct (TF.subtract _ IMAGENET_MEAN); [|discriminate].
  cbn [bind]. congruence.
Qed.

Lemma preprocess_decoded (self : generator) (filename : string) (label : Z)
  (one_hot : TF.tensor1 TF.float32) (contents : string)
  (decoded : TF.tensor3 Z) (h w : nat) :
  TF.one_hot label (num_classes self) = Ok one_hot ->
  read_file filename = Ok contents ->
  decode_png contents 3 = Ok decoded ->
  TF.has_shape h w 3 (resize_images decoded (227, 227)%nat) = true ->
  pre self filename label
  = Ok (map (map (fun px => rev (centred px)))
            (resize_images decoded (227, 227)%nat), one_hot).
Proof.
  intros Hone Hread Hdecode Hshape. unfold preprocess.
  rewrite Hone, Hread. cbn [bind]. rewrite Hdecode. cbn [bind].
  rewrite (subtract_shaped _ _ _ Hshape). cbn [bind].
  unfold TF.reverse_channels. rewrite map_map.
  f_equal. f_equal. apply map_ext. intros row. now rewrite map_map.
Qed.

Lemma train_of_preprocess (self : generator) (filename : string) (label : Z)
  (s : supply) (img : TF.tensor3 TF.float32)
  (one_hot : TF.tensor1 TF.float32) :
  pre self filename label = Ok (img, one_hot) ->
  fst (parse_train self filename label s) = Ok (img, one_hot)
  \/ fst (parse_train self filename label s)
     = Ok (TF.flip_left_right img, one_hot).
Proof.
  intros Hpre. rewrite train_preprocess.
  rewrite Hpre.
  destruct (TF.less (s 0%nat) (1 # 2) && TF.less (s 1%nat) (1 # 4)
            && TF.less (s 2%nat) (1 # 2)); [now right | now left].
Qed.

(** C10. In training mode, flip being the only enabled transform, the
    output is for every supply of draws either the tensor of inference
    mode or that tensor mirrored left to right, with the same one-hot
    label; a failure of inference mode is the same failure in training
    mode; both outputs occur. *)
Theorem train_output_two_values (self : generator) (filename : string)
  (label : Z) (s s' : supply) :
  match fst (parse_inference self filename label s') with
  | Ok (img, one_hot) =>
      (fst (parse_train self filename label s) = Ok (img, one_hot)
       \/ fst (parse_train self filename label s)
          = Ok (TF.flip_left_right img, one_hot))
      /\ fst (parse_train self filename label (fun _ => 1%Q))
         = Ok (img, one_hot)
      /\ fst (parse_train self filename label (fun _ => 0%Q))
         = Ok (TF.flip_left_right img, one_hot)
  | Raise e => fst (parse_train self filename label s) = Raise e
  end.
Proof.
  rewrite inference_preprocess. cbn [fst].
  destruct (preprocess read_file decode_png resize_images self filename
              label) as [[img one_hot]|e] eqn:Hpre.
  - split; [now apply train_of_preprocess|].
    rewrite !train_preprocess, Hpre. split; reflexivity.
  - now rewrite train_preprocess, Hpre.
Qed.

(** C5. In inference mode the transform is deterministic: two invocations
    on files of the same contents and on the same label return the same
    result whatever the states of the random source are, and no draw is
    taken. *)
Theorem inference_deterministic (self : generator) (f1 f2 : string)
  (label : Z) (s1 s2 : supply) :
  read_file f1 = read_file f2 ->
  fst (parse_inference self f1 label s1)
  = fst (parse_inference self f2 label s2)
  /\ snd (parse_inference self f1 label s1) = s1
  /\ snd (parse_inference self f2 label s2) = s2.
Proof.
  intros Hsame. rewrite !inference_preprocess.
  cbn [fst snd]. repeat split.
  unfold preprocess. now rewrite Hsame.
Qed.

(** C7. The transform subtracts the mean [123.68, 116.779, 103.939] in
    the order R, G, B from the resized image and then reverses the
    channels: the pixel (r, g, b) becomes (b - 103.939, g - 116.779,
    r - 123.68). When every pixel of the resized image is the mean colour,
    every pixel of the output is (0, 0, 0), in both modes. *)
Theorem mean_subtraction_then_bgr (self : generator) (filename : string)
  (label : Z) (s : supply) (one_hot : TF.tensor1 TF.float32)
  (contents : string) (decoded : TF.tensor3 Z) (h w : nat) :
  TF.one_hot label (num_classes self) = Ok one_hot ->
  read_file filename = Ok contents ->
  decode_png contents 3 = Ok decoded ->
  TF.has_shape h w 3 (resize_images decoded (227, 227)%nat) = true ->
  exists img,
    fst (parse_inference self filename label s) = Ok (img, one_hot)
    /\ (forall i j r g b,
          TF.pixel (resize_images decoded (227, 227)%nat) i j
          = Some [r; g; b] ->
          TF.pixel img i j
          = Some [TF.sub b (TF.of_milli 103939);
                  TF.sub g (TF.of_milli 116779);
                  TF.sub r (TF.of_milli 123680)])
    /\ (resize_images decoded (227, 227)%nat = TF.fill h w IMAGENET_MEAN ->
        img = TF.fill h w [TF.zero; TF.zero; TF.zero]
        /\ fst (parse_train self filename label s)
           = Ok (TF.fill h w [TF.zero; TF.zero; TF.zero], one_hot)).
Proof.
  intros Hone Hread Hdecode Hshape.
  pose proof (preprocess_decoded self filename label one_hot contents
                decoded h w Hone Hread Hdecode Hshape) as Hpre.
  eexists. split; [|split].
  - rewrite inference_preprocess. exact Hpre.
  - intros i j r g b Hpx. rewrite pixel_map, Hpx. cbn [option_map].
    now rewrite centred_rgb.
  - intros Hfill. rewrite Hfill, map_fill, centred_mean.
    split; [reflexivity|].
    destruct (train_of_preprocess self filename label s _ _ Hpre) as [H | H];
      rewrite H, Hfill, map_fill, centred_mean; [reflexivity|].
    now rewrite flip_fill.
Qed.

(** C8. For a label l with 0 <= l < num_classes the one-hot encoding is
    a vector of length num_classes that holds 1.0 at index l and 0.0 at
    every other index, and it is the vector that the transform returns. *)
Theorem one_hot_in_range (self : generator) (label : Z) :
  0 <= label < num_classes self ->
  exists v,
    TF.one_hot label (num_classes self) = Ok v
    /\ Z.of_nat (List.length v) = num_classes self
    /\ nth_error v (Z.to_nat label) = Some TF.one
    /\ (forall i, (i < List.length v)%nat -> i <> Z.to_nat label ->
                  nth_error v i = Some TF.zero)
    /\ TF.one <> TF.zero
    /\ forall filename s img one_hot,
         fst (parse_train self filename label s) = Ok (img, one_hot)
         \/ fst (parse_inference self filename label s) = Ok (img, one_hot) ->
         one_hot = v.
Proof.
  intros Hl. unfold TF.one_hot at 1.
  destruct (Z.ltb_spec (num_classes self) 0) as [Hneg|Hpos]; [lia|].
  eexists. split; [reflexivity|].
  split; [rewrite length_map, range_length; lia|].
  split.
  { rewrite nth_error_map, range_nth by lia. cbn [option_map].
    rewrite Z2Nat.id by lia. now rewrite Z.eqb_refl. }
  split.
  { intros i Hi Hne. rewrite length_map, range_length in Hi.
    rewrite nth_error_map, range_nth by exact Hi. cbn [option_map].
    destruct (Z.eqb_spec label (Z.of_nat i)); [|reflexivity].
    subst label. now rewrite Nat2Z.id in Hne. }
  split; [discriminate|].
  intros filename s img one_hot H.
  assert (Hpre : exists img', pre self filename label = Ok (img', one_hot)).
  { destruct H as [H | H].
    - rewrite train_preprocess in H.
      destruct (pre self filename label) as [[img' oh]|]; [|discriminate].
      exists img'. congruence.
    - rewrite inference_preprocess in H.
      exists img. exact H. }
  destruct Hpre as (img' & Hpre). apply preprocess_one_hot in Hpre.
  unfold TF.one_hot in Hpre.
  destruct (Z.ltb_spec (num_classes self) 0); [lia|]. congruence.
Qed.

(** C1, as the code has it. For a label outside [0, num_classes) the
    one-hot encoding does not fail: it is the vector of num_classes
    zeros, and the transform returns that vector as the label. *)
Theorem one_hot_out_of_range (self : generator) (label : Z) :
  0 <= num_classes self ->
  label < 0 \/ num_classes self <= label ->
  TF.one_hot label (num_classes self)
  = Ok (repeat TF.zero (Z.to_nat (num_classes self)))
  /\ forall filename s img one_hot,
       fst (parse_train self filename label s) = Ok (img, one_hot)
       \/ fst (parse_inference self filename label s) = Ok (img, one_hot) ->
       one_hot = repeat TF.zero (Z.to_nat (num_classes self)).
Proof.
  intros Hn Hl. pose proof (one_hot_zeros _ _ Hn Hl) as Hzeros.
  split; [exact Hzeros|].
  intros filename s img one_hot H.
  assert (Hpre : exists img', pre self filename label = Ok (img', one_hot)).
  { destruct H as [H | H].
    - rewrite train_preprocess in H.
      destruct (pre self filename label) as [[img' oh]|]; [|discriminate].
      exists img'. congruence.
    - rewrite inference_preprocess in H.
      exists img. exact H. }
  destruct Hpre as (img' & Hpre). apply preprocess_one_hot in Hpre.
  congruence.
Qed.

(** The contracts of the decoder and of the resizing kernel: decoding
    with three channels yields a non-empty three-channel image, and
    resizing yields the requested height and width and keeps the
    channels. *)
Hypothesis decode_png_shape :
  forall contents img,
    decode_png contents 3 = Ok img ->
    exists h w, h <> 0%nat /\ w <> 0%nat /\ TF.has_shape h w 3 img = true.

Hypothesis resize_images_shape :
  forall img h w c new_h new_w,
    h <> 0%nat -> w <> 0%nat ->
    TF.has_shape h w c img = true ->
    TF.has_shape new_h new_w c (resize_images img (new_h, new_w)) = true.

Lemma preprocess_shape (self : generator) (filename : string) (label : Z)
  (img : TF.tensor3 TF.float32) (one_hot : TF.tensor1 TF.float32) :
  pre self filename label = Ok (img, one_hot) ->
  TF.has_shape 227 227 3 img = true.
Proof.
  unfold preprocess.
  destruct (TF.one_hot label (num_classes self)) as [v|]; [|discriminate].
  cbn [bind]. destruct (read_file filename) as [c|]; [|discriminate].
  cbn [bind]. destruct (decode_png c 3) as [d|] eqn:Hd; [|discriminate].
  cbn [bind]. destruct (decode_png_shape _ _ Hd) as (h & w & Hh & Hw & Hs).
  pose proof (resize_images_shape d h w 3%nat 227%nat 227%nat Hh Hw Hs) as Hr.
  rewrite (subtract_shaped _ _ _ Hr). cbn [bind].
  intros H. inversion H; subst. unfold TF.reverse_channels.
  apply (has_shape_map (@rev TF.float32) _ _ 3);
    [intros px Hpx; now rewrite length_rev|].
  apply (has_shape_map centred _ _ 3); [apply centred_length | exact Hr].
Qed.

(** C6. For every decodable image, of any resolution, the tensor that
    the transform returns has the shape 227 x 227 x 3, in training and in
    inference mode; and the transform does return when the file is
    readable and decodable. *)
Theorem transform_shape (self : generator) (filename : string) (label : Z)
  (s : supply) :
  (forall img one_hot,
     fst (parse_inference self filename label s) = Ok (img, one_hot) ->
     TF.has_shape 227 227 3 img = true)
  /\ (forall img one_hot,
        fst (parse_train self filename label s) = Ok (img, one_hot) ->
        TF.has_shape 227 227 3 img = true)
  /\ (forall contents decoded,
        0 <= num_classes self ->
        read_file filename = Ok contents ->
        decode_png contents 3 = Ok decoded ->
        (exists img one_hot,
           fst (parse_inference self filename label s) = Ok (img, one_hot))
        /\ (exists img one_hot,
              fst (parse_train self filename label s) = Ok (img, one_hot))).
Proof.
  split; [|split].
  - intros img one_hot H.
    rewrite inference_preprocess in H. now apply preprocess_shape in H.
  - intros img one_hot H.
    rewrite train_preprocess in H.
    destruct (pre self filename label) as [[img' oh]|] eqn:Hpre;
      [|discriminate].
    apply preprocess_shape in Hpre.
    destruct (TF.less (s 0%nat) (1 # 2) && TF.less (s 1%nat) (1 # 4)
              && TF.less (s 2%nat) (1 # 2)); inversion H; subst.
    + now apply has_shape_flip.
    + exact Hpre.
  - intros contents decoded Hn Hread Hdecode.
    destruct (decode_png_shape _ _ Hdecode) as (h & w & Hh & Hw & Hs).
    pose proof (resize_images_shape decoded h w 3%nat 227%nat 227%nat
                  Hh Hw Hs) as Hr.
    assert (Hone : exists v, TF.one_hot label (num_classes self) = Ok v).
    { unfold TF.one_hot. destruct (Z.ltb_spec (num_classes self) 0); [lia|].
      eexists. reflexivity. }
    destruct Hone as (v & Hone).
    pose proof (preprocess_decoded self filename label v contents decoded
                  _ _ Hone Hread Hdecode Hr) as Hpre.
    split.
    + do 2 eexists.
      rewrite inference_preprocess. exact Hpre.
    + destruct (train_of_preprocess self filename label s _ _ Hpre)
        as [H | H]; do 2 eexists; exact H.
Qed.

End TransformFacts.

(** ** The theorems on the small instance of the kernels *)

Lemma sample_decode_png_shape (contents : string) (img : TF.tensor3 Z) :
  sample_decode_png contents 3 = Ok img ->
  exists h w, h <> 0%nat /\ w <> 0%nat /\ TF.has_shape h w 3 img = true.
Proof.
  destruct contents as [|c r]; [discriminate|].
  cbn. intros H. inversion H; subst.
  exists 1%nat, 1%nat. repeat split; discriminate.
Qed.

Lemma sample_resize_images_shape (img : TF.tensor3 Z)
  (h w c new_h new_w : nat) :
  h <> 0%nat -> w <> 0%nat ->
  TF.has_shape h w c img = true ->
  TF.has_shape new_h new_w c (sample_resize_images img (new_h, new_w)) = true.
Proof.
  intros Hh Hw H. apply has_shape_spec in H. destruct H as [Hlen Hrows].
  destruct img as [|row img]; [cbn in Hlen; congruence|].
  destruct (Hrows row (or_introl eq_refl)) as [Hrow Hpx].
  destruct row as [|px row]; [cbn in Hrow; congruence|].
  pose proof (Hpx px (or_introl eq_refl)) as Hc.
  unfold sample_resize_images. cbn [fst snd hd].
  replace c with (List.length (map TF.of_Z px))
    by (rewrite length_map; exact Hc).
  apply has_shape_fill.
Qed.

Lemma inference_deterministic_witness :
  fst (_parse_function_inference sample_read_file sample_decode_png
         sample_resize_images sample_generator "cat1.png" 0 (fun _ => 0%Q))
  = fst (_parse_function_inference sample_read_file sample_decode_png
           sample_resize_images sample_generator "cat1.png" 0
           (fun _ => 1%Q)).
Proof.
  apply (inference_deterministic sample_read_file sample_decode_png
           sample_resize_images sample_generator "cat1.png" "cat1.png" 0
           (fun _ => 0%Q) (fun _ => 1%Q)).
  reflexivity.
Defined.

Lemma transform_shape_witness :
  exists img one_hot,
    fst (_parse_function_train sample_read_file sample_decode_png
           sample_resize_images sample_generator "cat1.png" 0
           (fun _ => 0%Q)) = Ok (img, one_hot)
    /\ TF.has_shape 227 227 3 img = true.
Proof.
  destruct (transform_shape sample_read_file sample_decode_png
              sample_resize_images sample_decode_png_shape
              sample_resize_images_shape sample_generator "cat1.png" 0
              (fun _ => 0%Q)) as (_ & Htrain & Hreturns).
  destruct (Hreturns "cat1.png" [[[99; 99; 99]]]) as [_ (img & one_hot & H)].
  - cbn. lia.
  - reflexivity.
  - reflexivity.
  - exists img, one_hot. split; [exact H | exact (Htrain _ _ H)].
Defined.

Lemma mean_subtraction_then_bgr_witness :
  fst (_parse_function_train sample_read_file sample_decode_png
         mean_resize_images sample_generator "cat1.png" 0 (fun _ => 0%Q))
  = Ok (TF.fill 227 227 [TF.zero; TF.zero; TF.zero], [TF.one; TF.zero]).
Proof.
  destruct (mean_subtraction_then_bgr sample_read_file sample_decode_png
              mean_resize_images sample_generator "cat1.png" 0
              (fun _ => 0%Q) [TF.one; TF.zero] "cat1.png" [[[99; 99; 99]]]
              227 227 eq_refl eq_refl eq_refl
              (has_shape_fill 227 227 IMAGENET_MEAN))
    as (img & _ & _ & Hmean).
  apply Hmean. reflexivity.
Defined.

Lemma one_hot_in_range_witness :
  exists v,
    TF.one_hot 1 (num_classes sample_generator) = Ok v
    /\ nth_error v 1 = Some TF.one.
Proof.
  destruct (one_hot_in_range sample_read_file sample_decode_png
              sample_resize_images sample_generator 1)
    as (v & Hv & _ & Hone & _).
  - cbn. lia.
  - exists v. split; [exact Hv | exact Hone].
Defined.

Lemma one_hot_out_of_range_witness :
  TF.one_hot 5 (num_classes sample_generator) = Ok [TF.zero; TF.zero].
Proof.
  apply (one_hot_out_of_range sample_read_file sample_decode_png
           sample_resize_images sample_generator 5).
  - cbn. lia.
  - right. cbn. lia.
Defined.

(** C1, as stated, fails: with three classes the label -1, and with two
    classes the label 7, are encoded as zeros, no error is raised, and the
    transform returns. *)
Lemma one_hot_range_error_counterexample :
  TF.one_hot (-1) 3 = Ok [TF.zero; TF.zero; TF.zero]
  /\ TF.one_hot 7 2 = Ok [TF.zero; TF.zero]
  /\ ~ (exists e, TF.one_hot (-1) 3 = Raise e /\ is_RangeError e = true)
  /\ match fst (_parse_function_inference sample_read_file sample_decode_png
                  sample_resize_images sample_generator "cat1.png" 7
                  (fun _ => 0%Q)) with
     | Ok (_, one_hot) => one_hot = [TF.zero; TF.zero]
     | Raise _ => False
     end.
Proof.
  split; [reflexivity|]. split; [reflexivity|]. split.
  - intros (e & H & _). discriminate H.
  - vm_compute. reflexivity.
Qed.

(** * Further properties of the loader *)

Lemma read_line_fields (self self' : generator) (line : string) :
  read_line self line = Ok self' ->
  exists label,
    Py.int (second_item line) = Ok label
    /\ lacks_pair line = false
    /\ self' = set_lists self
                 (img_paths self
                  ++ [Py.os_path_join (dataroot self) (first_item line)])
                 (labels self ++ [label]).
Proof.
  unfold read_line, first_item, second_item, lacks_pair.
  destruct (Py.split Py.SP line) as [|a [|b t]]; cbn; try discriminate.
  destruct (Py.int b) as [label|]; cbn; [|discriminate].
  intros H. inversion H. exists label. repeat split.
Qed.

Lemma read_lines_fields (lines : list string) :
  forall self self',
    read_lines self lines = Ok self' ->
    exists lbls,
      Forall2 (fun line label => Py.int (second_item line) = Ok label)
              lines lbls
      /\ self' = set_lists self
                   (img_paths self
                    ++ map (fun line => Py.os_path_join (dataroot self)
                                          (first_item line)) lines)
                   (labels self ++ lbls).
Proof.
  induction lines as [|line more IH]; intros self self' H.
  - cbn in H. inversion H; subst. exists []. split; [constructor|].
    cbn. rewrite !app_nil_r. now destruct self'.
  - cbn [read_lines] in H.
    destruct (read_line self line) as [self1|] eqn:Hline; [|discriminate H].
    cbn [bind] in H.
    destruct (read_line_fields _ _ _ Hline) as (label & Hint & _ & ->).
    destruct (IH _ _ H) as (lbls & Hall & ->).
    exists (label :: lbls). split; [now constructor|].
    unfold set_lists. cbn. now rewrite <- !app_assoc.
Qed.

Lemma read_line_error (self : generator) (line : string) :
  bad_line line = true ->
  read_line self line
  = Raise (if lacks_pair line then IndexError else ValueError).
Proof.
  unfold bad_line, lacks_pair, bad_label, read_line.
  destruct (Py.split Py.SP line) as [|a [|b t]]; cbn; try reflexivity.
  destruct (Py.int b) as [label|e] eqn:Hint; [discriminate|].
  intros _. now rewrite (int_raises _ _ Hint).
Qed.

(** X2. Whenever the loader succeeds it stores one pair per line of the
    file, in order: the i-th path is the root directory joined with the
    text before the first space of line i, the i-th label is the integer
    that [int] reads from the text between its first and second space;
    the loader changes nothing else of the object. *)
Theorem load_one_pair_per_line
  (fs : string -> option string) (self self' : generator)
  (content : string) :
  fs (txt_file self) = Some content ->
  _read_txt_file fs self = Ok self' ->
  img_paths self'
  = map (fun line => Py.os_path_join (dataroot self) (first_item line))
        (Py.readlines content)
  /\ Forall2 (fun line label => Py.int (second_item line) = Ok label)
             (Py.readlines content) (labels self')
  /\ List.length (img_paths self') = List.length (Py.readlines content)
  /\ List.length (labels self') = List.length (Py.readlines content)
  /\ dataroot self' = dataroot self /\ txt_file self' = txt_file self
  /\ num_classes self' = num_classes self
  /\ data_size self' = data_size self.
Proof.
  intros Hfs H. rewrite (read_txt_file_existing _ _ _ Hfs) in H.
  destruct (read_lines_fields _ _ _ H) as (lbls & Hall & ->). cbn.
  repeat split; try assumption.
  - now rewrite length_map.
  - symmetry. exact (Forall2_length Hall).
Qed.

Lemma load_one_pair_per_line_witness :
  exists self',
    _read_txt_file sample_fs sample_generator = Ok self'
    /\ List.length (img_paths self') = 2%nat
    /\ List.length (labels self') = 2%nat.
Proof.
  exists sample_generator.
  destruct (load_one_pair_per_line sample_fs sample_generator
              sample_generator sample_manifest eq_refl eq_refl)
    as (_ & _ & Hp & Hl & _).
  repeat split; assumption.
Defined.

Lemma read_lines_same_lists (lines : list string) :
  forall self1 self2,
    dataroot self1 = dataroot self2 ->
    img_paths self1 = img_paths self2 ->
    labels self1 = labels self2 ->
    match read_lines self1 lines, read_lines self2 lines with
    | Ok a, Ok b => img_paths a = img_paths b /\ labels a = labels b
    | Raise e1, Raise e2 => e1 = e2
    | _, _ => False
    end.
Proof.
  induction lines as [|line more IH]; intros self1 self2 Hroot Hp Hl.
  - cbn. now split.
  - cbn [read_lines].
    assert (Hline :
      match read_line self1 line, read_line self2 line with
      | Ok a, Ok b => dataroot a = dataroot b
                      /\ img_paths a = img_paths b /\ labels a = labels b
      | Raise e1, Raise e2 => e1 = e2
      | _, _ => False
      end).
    { unfold read_line.
      destruct (Py.index (Py.split Py.SP line) 0) as [item0|]; cbn;
        [|reflexivity].
      destruct (Py.index (Py.split Py.SP line) 1) as [item1|]; cbn;
        [|reflexivity].
      destruct (Py.int item1) as [label|]; cbn; [|reflexivity].
      rewrite Hroot, Hp, Hl. repeat split; assumption. }
    destruct (read_line self1 line) as [a|e1], (read_line self2 line)
      as [b|e2]; try contradiction; cbn [bind].
    + destruct Hline as (Ha & Hb & Hc). now apply IH.
    + exact Hline.
Qed.

(** X3. The outcome of the loader depends on the object only through the
    manifest path and the root directory: two objects that agree on them
    load the same lists, or fail with the same exception, whatever lists,
    class count and size they held before. *)
Theorem load_depends_only_on_file_and_root
  (fs : string -> option string) (self1 self2 : generator) :
  txt_file self1 = txt_file self2 ->
  dataroot self1 = dataroot self2 ->
  match _read_txt_file fs self1, _read_txt_file fs self2 with
  | Ok a, Ok b => img_paths a = img_paths b /\ labels a = labels b
  | Raise e1, Raise e2 => e1 = e2
  | _, _ => False
  end.
Proof.
  intros Hfile Hroot. unfold _read_txt_file. cbv zeta.
  change (txt_file (set_lists self1 [] [])) with (txt_file self1).
  change (txt_file (set_lists self2 [] [])) with (txt_file self2).
  rewrite Hfile. destruct (fs (txt_file self2)) as [content|]; [|reflexivity].
  apply read_lines_same_lists; [exact Hroot | reflexivity | reflexivity].
Qed.

Lemma load_depends_only_on_file_and_root_witness :
  match _read_txt_file sample_fs sample_generator,
        _read_txt_file sample_fs (mkGenerator "data" "list.txt" 7 [] [5] 9)
  with
  | Ok a, Ok b => img_paths a = img_paths b /\ labels a = labels b
  | Raise e1, Raise e2 => e1 = e2
  | _, _ => False
  end.
Proof.
  apply (load_depends_only_on_file_and_root sample_fs sample_generator
           (mkGenerator "data" "list.txt" 7 [] [5] 9) eq_refl eq_refl).
Defined.

(** X4. Loading is idempotent: loading again into the object that a
    load returned returns that object. *)
Theorem load_idempotent
  (fs : string -> option string) (self self' : generator) :
  _read_txt_file fs self = Ok self' ->
  _read_txt_file fs self' = Ok self'.
Proof.
  intros H. pose proof H as H0. unfold _read_txt_file in H. cbv zeta in H.
  change (txt_file (set_lists self [] [])) with (txt_file self) in H.
  destruct (fs (txt_file self)) as [content|] eqn:Hfs; [|discriminate H].
  destruct (read_lines_fields _ _ _ H) as (lbls & _ & Hself').
  assert (Hreset : set_lists self' [] [] = set_lists self [] []).
  { rewrite Hself'. reflexivity. }
  unfold _read_txt_file. cbv zeta. rewrite Hreset.
  change (txt_file (set_lists self [] [])) with (txt_file self).
  rewrite Hfs. exact H.
Qed.

Lemma load_idempotent_witness :
  _read_txt_file sample_fs sample_generator = Ok sample_generator.
Proof.
  apply (load_idempotent sample_fs sample_generator sample_generator).
  reflexivity.
Defined.

Lemma all_space_newline (r : string) :
  Py.all_space (r ++ String Py.LF EmptyString) = Py.all_space r.
Proof.
  induction r as [|c r IH]; [reflexivity|].
  cbn [String.append Py.all_space]. now rewrite IH.
Qed.

Lemma scan_digits_newline (r : string) :
  forall acc after_underscore,
    Py.scan_digits acc after_underscore (r ++ String Py.LF EmptyString)
    = Py.scan_digits acc after_underscore r.
Proof.
  induction r as [|c r IH]; intros acc u.
  - destruct u; reflexivity.
  - cbn [String.append Py.scan_digits].
    destruct (Py.digit_value c); [apply IH|].
    destruct (Ascii.eqb c "_"%char).
    + destruct u; [reflexivity | apply IH].
    + destruct u; [reflexivity|].
      change (String c (r ++ String Py.LF EmptyString))
        with (String c r ++ String Py.LF EmptyString)%string.
      now rewrite all_space_newline.
Qed.

Lemma int_skips_space (c : ascii) (r : string) :
  Py.isspace c = true -> Py.int (String c r) = Py.int r.
Proof.
  intros H. unfold Py.int. cbn [Py.lstrip]. now rewrite H.
Qed.

(** [int] does not see a line feed after its argument. *)
Lemma int_newline (b : string) :
  Py.int (b ++ String Py.LF EmptyString) = Py.int b.
Proof.
  induction b as [|c r IH]; [reflexivity|].
  cbn [String.append].
  destruct (Py.isspace c) eqn:Hsp.
  - now rewrite !int_skips_space.
  - unfold Py.int. cbn [Py.lstrip]. rewrite Hsp.
    destruct (Ascii.eqb c "+"%char);
      [|destruct (Ascii.eqb c "-"%char)].
    + destruct r as [|d r']; [reflexivity|]. cbn [String.append].
      destruct (Py.digit_value d); [|reflexivity].
      now rewrite scan_digits_newline.
    + destruct r as [|d r']; [reflexivity|]. cbn [String.append].
      destruct (Py.digit_value d); [|reflexivity].
      now rewrite scan_digits_newline.
    + destruct (Py.digit_value c); [|reflexivity].
      now rewrite scan_digits_newline.
Qed.

Lemma read_line_ignores_rest (self : generator) (a b junk ending : string) :
  string_forallb (fun c => negb (Ascii.eqb c Py.SP)) a = true ->
  string_forallb (fun c => negb (Ascii.eqb c Py.SP)) b = true ->
  ending = EmptyString \/ ending = String Py.LF EmptyString ->
  read_line self (a ++ String Py.SP (b ++ String Py.SP junk))
  = read_line self (a ++ String Py.SP (b ++ ending)).
Proof.
  intros Ha Hb Hend. unfold read_line.
  rewrite !(split_app a) by exact Ha.
  rewrite (split_app b) by exact Hb.
  rewrite (split_no_separator (b ++ ending)).
  - cbn [Py.index nth_error bind].
    destruct Hend as [-> | ->];
      [now rewrite append_empty | now rewrite int_newline].
  - rewrite string_forallb_app, Hb.
    destruct Hend as [-> | ->]; reflexivity.
Qed.

(** X5. Only the first two space-separated items of a line are read:
    whatever follows a second space on a line has no effect on what is
    loaded; the line loads as if it ended after its second item. *)
Theorem load_ignores_text_after_second_space
  (fs1 fs2 : string -> option string) (self : generator)
  (content1 content2 : string) (before after_ : list string)
  (a b junk ending : string) :
  string_forallb (fun c => negb (Ascii.eqb c Py.SP)) a = true ->
  string_forallb (fun c => negb (Ascii.eqb c Py.SP)) b = true ->
  ending = EmptyString \/ ending = String Py.LF EmptyString ->
  fs1 (txt_file self) = Some content1 ->
  fs2 (txt_file self) = Some content2 ->
  Py.readlines content1
  = before ++ (a ++ String Py.SP (b ++ String Py.SP junk))%string :: after_ ->
  Py.readlines content2
  = before ++ (a ++ String Py.SP (b ++ ending))%string :: after_ ->
  _read_txt_file fs1 self = _read_txt_file fs2 self.
Proof.
  intros Ha Hb Hend Hfs1 Hfs2 Hlines1 Hlines2.
  rewrite (read_txt_file_existing _ _ _ Hfs1),
          (read_txt_file_existing _ _ _ Hfs2), Hlines1, Hlines2.
  rewrite !read_lines_app.
  destruct (read_lines (set_lists self [] []) before) as [self1|];
    [|reflexivity].
  cbn [bind read_lines]. now rewrite (read_line_ignores_rest _ a b junk ending).
Qed.

Lemma load_ignores_text_after_second_space_witness :
  _read_txt_file (fun _ => Some "a.png 3 and more
b.png 4") sample_generator
  = _read_txt_file (fun _ => Some "a.png 3
b.png 4") sample_generator.
Proof.
  apply (load_ignores_text_after_second_space
           (fun _ => Some "a.png 3 and more
b.png 4") (fun _ => Some "a.png 3
b.png 4") sample_generator "a.png 3 and more
b.png 4" "a.png 3
b.png 4" [] ["b.png 4"] "a.png" "3" "and more
" (String Py.LF EmptyString)).
  - reflexivity.
  - reflexivity.
  - right. reflexivity.
  - reflexivity.
  - reflexivity.
  - reflexivity.
  - reflexivity.
Defined.

(** X6. On an ASCII manifest the loader stops at the first line that
    is not readable, and that line decides the exception: IndexError when
    the line has no space, ValueError when its second item is not an
    integer literal. *)
Theorem load_error_of_first_bad_line
  (fs : string -> option string) (self : generator) (content : string)
  (good more : list string) (bad : string) :
  fs (txt_file self) = Some content ->
  is_ascii content = true ->
  Py.readlines content = good ++ bad :: more ->
  Forall readable good ->
  ~ readable bad ->
  _read_txt_file fs self
  = Raise (if string_forallb (fun c => negb (Ascii.eqb c Py.SP)) bad
           then IndexError else ValueError).
Proof.
  intros Hfs _ Hlines Hgood Hbad.
  rewrite (read_txt_file_existing _ _ _ Hfs), Hlines, read_lines_app.
  pose proof (read_lines_outcome good (set_lists self [] [])) as Hout.
  assert (Hnone : existsb bad_line good = false).
  { destruct (existsb bad_line good) eqn:E; [|reflexivity].
    apply some_line_not_readable in E. destruct E as (line & Hin & Hnot).
    rewrite Forall_forall in Hgood. now elim Hnot; apply Hgood. }
  rewrite Hnone in Hout. destruct Hout as (self1 & ->).
  cbn [bind read_lines]. apply not_readable_bad_line in Hbad.
  rewrite (read_line_error _ _ Hbad). now rewrite lacks_pair_no_space.
Qed.

Lemma load_error_of_first_bad_line_witness :
  _read_txt_file (fun _ => Some "a.png 0
b.png x
c.png
") sample_generator = Raise ValueError.
Proof.
  apply (load_error_of_first_bad_line (fun _ => Some "a.png 0
b.png x
c.png
") sample_generator "a.png 0
b.png x
c.png
" ["a.png 0
"] ["c.png
"] "b.png x
").
  - reflexivity.
  - reflexivity.
  - reflexivity.
  - constructor; [|constructor].
    exists "0
"%string, 0. split; [reflexivity|].
    apply int_reads_only_literals. reflexivity.
  - intros (token & v & Hnth & Hlit). inversion Hnth; subst.
    apply int_reads_literal in Hlit. discriminate Hlit.
Defined.

Lemma universal_newlines_to_crlf (s : string) :
  string_forallb (fun c => negb (Ascii.eqb c Py.CR)) s = true ->
  Py.universal_newlines (to_crlf s) = s.
Proof.
  induction s as [|c r IH]; [reflexivity|].
  intros H. simpl in H. apply andb_prop in H. destruct H as [Hc Hr].
  apply negb_true_iff in Hc. cbn [to_crlf].
  destruct (Ascii.eqb c Py.LF) eqn:Hlf.
  - apply Ascii.eqb_eq in Hlf. subst c.
    cbn [Py.universal_newlines].
    change (Ascii.eqb Py.CR Py.CR) with true.
    change (Ascii.eqb Py.LF Py.LF) with true. cbv iota.
    now rewrite (IH Hr).
  - cbn [Py.universal_newlines]. rewrite Hc. now rewrite (IH Hr).
Qed.

(** X7. A manifest saved with Windows line endings loads exactly as the
    same manifest with plain line feeds. *)
Theorem load_windows_line_endings
  (fs1 fs2 : string -> option string) (self : generator) (content : string) :
  string_forallb (fun c => negb (Ascii.eqb c Py.CR)) content = true ->
  fs1 (txt_file self) = Some content ->
  fs2 (txt_file self) = Some (to_crlf content) ->
  _read_txt_file fs2 self = _read_txt_file fs1 self.
Proof.
  intros Hplain Hfs1 Hfs2.
  rewrite (read_txt_file_existing _ _ _ Hfs1),
          (read_txt_file_existing _ _ _ Hfs2).
  unfold Py.readlines.
  now rewrite (universal_newlines_to_crlf _ Hplain),
              (universal_newlines_plain _ Hplain).
Qed.

Lemma load_windows_line_endings_witness :
  _read_txt_file (fun _ => Some (to_crlf sample_manifest)) sample_generator
  = _read_txt_file sample_fs sample_generator.
Proof.
  apply (load_windows_line_endings sample_fs
           (fun _ => Some (to_crlf sample_manifest)) sample_generator
           sample_manifest); reflexivity.
Defined.

(** * Further properties of the shuffle *)

Lemma shuffle_loop_outcome (path : list string) (lbls : list Z)
  (permutation : list nat) :
  forall self,
    shuffle_loop path lbls permutation self
    = if forallb (in_range path lbls) permutation
      then Ok (set_lists self
                 (img_paths self
                  ++ map (fun i => nth i path EmptyString) permutation)
                 (labels self ++ map (fun i => nth i lbls 0) permutation))
      else Raise IndexError.
Proof.
  induction permutation as [|i more IH]; intros self.
  - cbn. rewrite !app_nil_r. now destruct self.
  - cbn [shuffle_loop forallb]. unfold in_range at 1.
    destruct (Nat.ltb_spec i (List.length path)) as [Hp|Hp].
    + rewrite (index_nth path i EmptyString Hp). cbn [bind andb].
      destruct (Nat.ltb_spec i (List.length lbls)) as [Hl|Hl].
      * rewrite (index_nth lbls i 0 Hl). cbn [bind]. rewrite IH.
        destruct (forallb (in_range path lbls) more); [|reflexivity].
        unfold set_lists. cbn. now rewrite <- !app_assoc.
      * unfold Py.index.
        replace (nth_error lbls i) with (@None Z)
          by (symmetry; now apply nth_error_None).
        reflexivity.
    + unfold Py.index.
      replace (nth_error path i) with (@None string)
        by (symmetry; now apply nth_error_None).
      reflexivity.
Qed.

Lemma shuffle_lists_outcome (np_random_permutation : nat -> list nat)
  (self : generator) :
  _shuffle_lists np_random_permutation self
  = if forallb (in_range (img_paths self) (labels self))
         (np_random_permutation (data_size self))
    then Ok (set_lists self
               (map (fun i => nth i (img_paths self) EmptyString)
                    (np_random_permutation (data_size self)))
               (map (fun i => nth i (labels self) 0)
                    (np_random_permutation (data_size self))))
    else Raise IndexError.
Proof.
  unfold _shuffle_lists. cbv zeta. rewrite shuffle_loop_outcome.
  destruct (forallb _ _); reflexivity.
Qed.

(** X8. The shuffle fails exactly when the permutation holds an index
    that one of the two lists does not have, and then with IndexError;
    it raises nothing else. *)
Theorem shuffle_fails_iff_index_out_of_range
  (np_random_permutation : nat -> list nat) (self : generator) :
  ((exists e, _shuffle_lists np_random_permutation self = Raise e)
   <-> exists i,
         In i (np_random_permutation (data_size self))
         /\ (List.length (img_paths self) <= i
             \/ List.length (labels self) <= i)%nat)
  /\ forall e, _shuffle_lists np_random_permutation self = Raise e ->
               e = IndexError.
Proof.
  rewrite shuffle_lists_outcome.
  destruct (forallb (in_range (img_paths self) (labels self))
              (np_random_permutation (data_size self))) eqn:Hall.
  - split; [|discriminate]. split; [intros (e & H); discriminate H|].
    intros (i & Hin & Hout). rewrite forallb_forall in Hall.
    specialize (Hall i Hin). unfold in_range in Hall.
    apply andb_prop in Hall. destruct Hall as [H1 H2].
    apply Nat.ltb_lt in H1. apply Nat.ltb_lt in H2. lia.
  - split; [|congruence]. split; [|intros _; now exists IndexError].
    intros _.
    assert (Hex : existsb (fun i => negb (in_range (img_paths self)
                                            (labels self) i))
                    (np_random_permutation (data_size self)) = true).
    { clear -Hall.
      induction (np_random_permutation (data_size self)) as [|i l IH];
        [discriminate|].
      cbn in *. destruct (in_range (img_paths self) (labels self) i);
        [now apply IH | reflexivity]. }
    apply existsb_exists in Hex. destruct Hex as (i & Hin & Hi).
    exists i. split; [exact Hin|].
    apply negb_true_iff in Hi. unfold in_range in Hi.
    apply andb_false_iff in Hi.
    destruct Hi as [Hi | Hi]; apply Nat.ltb_ge in Hi; lia.
Qed.

(** X9. A successful shuffle changes nothing of the object but the two
    lists; both then have the length of the permutation, and position k
    of each holds what was at index [permutation[k]]. *)
Theorem shuffle_keeps_fields
  (np_random_permutation : nat -> list nat) (self self' : generator) :
  _shuffle_lists np_random_permutation self = Ok self' ->
  let permutation := np_random_permutation (data_size self) in
  dataroot self' = dataroot self /\ txt_file self' = txt_file self
  /\ num_classes self' = num_classes self
  /\ data_size self' = data_size self
  /\ img_paths self'
     = map (fun i => nth i (img_paths self) EmptyString) permutation
  /\ labels self' = map (fun i => nth i (labels self) 0) permutation
  /\ List.length (img_paths self') = List.length permutation
  /\ List.length (labels self') = List.length permutation.
Proof.
  rewrite shuffle_lists_outcome.
  destruct (forallb _ _); [|discriminate].
  intros H. inversion H; subst. cbn.
  repeat split; now rewrite length_map.
Qed.

Lemma shuffle_keeps_fields_witness :
  exists self',
    _shuffle_lists (fun _ => [1; 1; 0]%nat) sample_generator = Ok self'
    /\ List.length (img_paths self') = 3%nat /\ data_size self' = 2%nat.
Proof.
  eexists. split; [reflexivity|].
  destruct (shuffle_keeps_fields (fun _ => [1; 1; 0]%nat) sample_generator
              _ eq_refl) as (_ & _ & _ & Hd & _ & _ & Hp & _).
  split; [exact Hp | exact Hd].
Defined.

Lemma nth_map_in_range {S T : Type} (f : S -> T) (l : list S) (k : nat)
  (d : S) (d' : T) :
  (k < List.length l)%nat -> nth k (map f l) d' = f (nth k l d).
Proof.
  intros H. rewrite (nth_indep _ d' (f d)) by (now rewrite length_map).
  apply map_nth.
Qed.

Lemma shuffle_twice (p q : list nat) (self : generator) :
  forallb (in_range (img_paths self) (labels self)) p = true ->
  forallb (fun k => Nat.ltb k (List.length p)) q = true ->
  (self1 <- _shuffle_lists (fun _ => p) self ;;
   _shuffle_lists (fun _ => q) self1)
  = Ok (set_lists self
          (map (fun k => nth (nth k p 0%nat) (img_paths self) EmptyString) q)
          (map (fun k => nth (nth k p 0%nat) (labels self) 0) q)).
Proof.
  intros Hp Hq. rewrite shuffle_lists_outcome, Hp. cbn [bind].
  rewrite shuffle_lists_outcome. cbn [img_paths labels set_lists].
  assert (Hq' : forallb
            (in_range (map (fun i => nth i (img_paths self) EmptyString) p)
                      (map (fun i => nth i (labels self) 0) p)) q = true).
  { apply forallb_forall. intros k Hk.
    rewrite forallb_forall in Hq. specialize (Hq k Hk).
    unfold in_range. rewrite !length_map. now rewrite Hq. }
  rewrite Hq'. unfold set_lists. cbn. f_equal. f_equal.
  - apply map_ext_in. intros k Hk. rewrite forallb_forall in Hq.
    specialize (Hq k Hk). apply Nat.ltb_lt in Hq.
    now apply (nth_map_in_range
                 (fun i => nth i (img_paths self) EmptyString)).
  - apply map_ext_in. intros k Hk. rewrite forallb_forall in Hq.
    specialize (Hq k Hk). apply Nat.ltb_lt in Hq.
    now apply (nth_map_in_range (fun i => nth i (labels self) 0)).
Qed.

(** X10. Two shuffles compose: shuffling by p and then by q is one
    shuffle by the permutation that sends k to [p[q[k]]]. *)
Theorem shuffle_compose (p q : list nat) (self : generator) :
  forallb (in_range (img_paths self) (labels self)) p = true ->
  forallb (fun k => Nat.ltb k (List.length p)) q = true ->
  (self1 <- _shuffle_lists (fun _ => p) self ;;
   _shuffle_lists (fun _ => q) self1)
  = _shuffle_lists (fun _ => map (fun k => nth k p 0%nat) q) self.
Proof.
  intros Hp Hq. rewrite (shuffle_twice _ _ _ Hp Hq).
  rewrite shuffle_lists_outcome.
  assert (Hpq : forallb (in_range (img_paths self) (labels self))
                  (map (fun k => nth k p 0%nat) q) = true).
  { apply forallb_forall. intros i Hi. apply in_map_iff in Hi.
    destruct Hi as (k & <- & Hk).
    rewrite forallb_forall in Hq, Hp. apply Hp. apply nth_In.
    apply Nat.ltb_lt. now apply Hq. }
  rewrite Hpq. now rewrite !map_map.
Qed.

Lemma shuffle_compose_witness :
  (self1 <- _shuffle_lists (fun _ => [1; 0]%nat) sample_generator ;;
   _shuffle_lists (fun _ => [1; 1; 0]%nat) self1)
  = _shuffle_lists (fun _ => [0; 0; 1]%nat) sample_generator.
Proof.
  apply (shuffle_compose [1; 0]%nat [1; 1; 0]%nat sample_generator);
    reflexivity.
Defined.

(** X11. Shuffling by a permutation and then by its inverse gives the
    object back as it was. *)
Theorem shuffle_then_inverse (p q : list nat) (self : generator) :
  List.length (img_paths self) = List.length p ->
  List.length (labels self) = List.length p ->
  forallb (fun i => Nat.ltb i (List.length p)) p = true ->
  forallb (fun k => Nat.ltb k (List.length p)) q = true ->
  map (fun k => nth k p 0%nat) q = seq 0 (List.length p) ->
  (self1 <- _shuffle_lists (fun _ => p) self ;;
   _shuffle_lists (fun _ => q) self1) = Ok self.
Proof.
  intros Hpaths Hlabels Hp Hq Hinv.
  assert (Hrange : forallb (in_range (img_paths self) (labels self)) p
                   = true).
  { apply forallb_forall. intros i Hi. rewrite forallb_forall in Hp.
    unfold in_range. rewrite Hpaths, Hlabels, (Hp i Hi). reflexivity. }
  rewrite (shuffle_twice _ _ _ Hrange Hq).
  rewrite <- (map_map (fun k => nth k p 0%nat)
                (fun i => nth i (img_paths self) EmptyString)).
  rewrite <- (map_map (fun k => nth k p 0%nat)
                (fun i => nth i (labels self) 0)).
  rewrite Hinv. rewrite <- Hpaths at 1. rewrite map_nth_seq.
  rewrite <- Hlabels. rewrite map_nth_seq. now destruct self.
Qed.

Lemma shuffle_then_inverse_witness :
  (self1 <- _shuffle_lists (fun _ => [1; 0]%nat) sample_generator ;;
   _shuffle_lists (fun _ => [1; 0]%nat) self1) = Ok sample_generator.
Proof.
  apply (shuffle_then_inverse [1; 0]%nat [1; 0]%nat sample_generator);
    reflexivity.
Defined.

(** * Further properties of the constructor *)

Lemma combine_map_nth (path : list string) (lbls : list Z)
  (permutation : list nat) :
  List.length path = List.length lbls ->
  combine (map (fun i => nth i path EmptyString) permutation)
          (map (fun i => nth i lbls 0) permutation)
  = map (fun i => nth i (combine path lbls) (EmptyString, 0)) permutation.
Proof.
  intros Hlen. induction permutation as [|i more IH]; [reflexivity|].
  cbn [map combine]. rewrite IH. f_equal. symmetry. now apply combine_nth.
Qed.

Lemma permuted_by_indices {T : Type} (l : list T) (d : T)
  (permutation : list nat) :
  Permutation permutation (seq 0 (List.length l)) ->
  Permutation (map (fun i => nth i l d) permutation) l.
Proof.
  intros H. rewrite (Permutation_map _ H). now rewrite map_nth_seq.
Qed.

(** X12. The first part of the constructor, lines 34 to 46, loads the
    manifest, records the number of its lines as the size, and shuffles
    only when asked to: the pairs it leaves are the loaded pairs, in
    manifest order without shuffle and reordered as pairs with it; no
    entry is lost, duplicated or paired with another label. *)
Theorem init_lists_pairs
  (fs : string -> option string) (np_random_permutation : nat -> list nat)
  (txt_file dataroot : string) (num_classes : Z) (shuffle : bool)
  (loaded : generator) :
  _read_txt_file fs (mkGenerator dataroot txt_file num_classes [] [] 0)
  = Ok loaded ->
  (shuffle = true ->
   Permutation (np_random_permutation (List.length (labels loaded)))
               (seq 0 (List.length (labels loaded)))) ->
  exists self',
    init_lists fs np_random_permutation txt_file dataroot num_classes shuffle
    = Ok self'
    /\ data_size self' = List.length (labels loaded)
    /\ List.length (img_paths self') = data_size self'
    /\ List.length (labels self') = data_size self'
    /\ Permutation (combine (img_paths self') (labels self'))
                   (combine (img_paths loaded) (labels loaded))
    /\ (shuffle = false ->
        img_paths self' = img_paths loaded /\ labels self' = labels loaded).
Proof.
  intros Hload Hperm.
  destruct (loaded_lists_aligned _ _ _ Hload) as [Hp _].
  cbn in Hp.
  unfold init_lists. cbv zeta. rewrite Hload. cbn [bind].
  destruct shuffle.
  - specialize (Hperm eq_refl).
    rewrite shuffle_lists_outcome. cbn [img_paths labels data_size
      set_data_size].
    set (perm := np_random_permutation (List.length (labels loaded))) in *.
    assert (Hrange : forallb (in_range (img_paths loaded) (labels loaded))
                       perm = true).
    { apply forallb_forall. intros i Hi.
      apply (Permutation_in _ Hperm) in Hi. apply in_seq in Hi.
      unfold in_range. rewrite Hp.
      destruct (Nat.ltb_spec i (List.length (labels loaded))); [|lia].
      reflexivity. }
    rewrite Hrange. eexists. split; [reflexivity|]. cbn.
    rewrite !length_map, (Permutation_length Hperm), length_seq.
    repeat split.
    + rewrite combine_map_nth by exact Hp.
      apply permuted_by_indices. rewrite length_combine, Hp, Nat.min_id.
      exact Hperm.
    + discriminate.
    + discriminate.
  - eexists. split; [reflexivity|]. cbn.
    repeat split; [exact Hp | apply Permutation_refl].
Qed.

Lemma init_lists_pairs_witness :
  exists self',
    init_lists sample_fs (fun n => rev (seq 0 n)) "list.txt" "data" 2 true
    = Ok self'
    /\ Permutation (combine (img_paths self') (labels self'))
                   [("data/cat1.png", 0); ("data/dog1.png", 1)].
Proof.
  destruct (init_lists_pairs sample_fs (fun n => rev (seq 0 n)) "list.txt"
              "data" 2 true
              (mkGenerator "data" "list.txt" 2
                 ["data/cat1.png"; "data/dog1.png"] [0; 1] 0)
              eq_refl
              (fun _ => Permutation_sym (Permutation_rev (seq 0 2))))
    as (self' & H & _ & _ & _ & Hperm & _).
  exists self'. split; [exact H | exact Hperm].
Defined.

(** * Further properties of the augmentation *)

Lemma after_rest (n : nat) (s : supply) : after n (rest s) = after (S n) s.
Proof. reflexivity. Qed.

(** X14. Whatever transforms are configured, each is gated by its own
    draw: for transforms that take no draw themselves, the loop of
    [augment] applies the k-th transform exactly when the k-th draw is
    below 0.25, and takes as many draws as there are transforms. *)
Theorem augment_loop_gates_each_transform {A : Type}
  (gs : list (TF.tensor3 A -> TF.tensor3 A)) :
  forall (x : TF.tensor3 A) (s : supply),
    augment_loop (map pure_transform gs) x s
    = (Ok (gated gs x s), after (List.length gs) s).
Proof.
  induction gs as [|g more IH]; intros x s; [reflexivity|].
  cbn [map]. rewrite augment_loop_stage. cbn [gated List.length].
  rewrite <- after_rest.
  destruct (TF.less (s 0%nat) (1 # 4)).
  - unfold bindM, pure_transform at 1, ret. apply IH.
  - apply IH.
Qed.

(** X15. Whatever transforms are configured, when none of their gate
    draws is below 0.25 the loop of [augment] returns the image
    unchanged, without running any transform. *)
Theorem augment_loop_no_gate_fires {A : Type}
  (augmentations : list (TF.tensor3 A -> M (TF.tensor3 A))) :
  forall (x : TF.tensor3 A) (s : supply),
    (forall k, (k < List.length augmentations)%nat ->
               TF.less (s k) (1 # 4) = false) ->
    augment_loop augmentations x s
    = (Ok x, after (List.length augmentations) s).
Proof.
  induction augmentations as [|f more IH]; intros x s Hgates;
    [reflexivity|].
  rewrite augment_loop_stage, (Hgates 0%nat) by (cbn; lia).
  cbn [List.length]. rewrite <- after_rest. apply IH.
  intros k Hk. unfold rest. apply Hgates. cbn. lia.
Qed.

Lemma augment_loop_no_gate_fires_witness :
  augment_loop [flip; flip] [[[1]; [2]]] (fun _ => 1 # 2)
  = (Ok [[[1]; [2]]], after 2 (fun _ => 1 # 2)).
Proof.
  apply (augment_loop_no_gate_fires [flip; flip] [[[1]; [2]]]
           (fun _ => 1 # 2)).
  intros k _. reflexivity.
Defined.

(** X16. What every configured transform preserves, the loop of
    [augment] preserves: a property of the input image that each
    transform keeps whenever it returns holds of the output of the loop
    whenever the loop returns. In particular the chain of flips keeps the
    shape of the image. *)
Theorem augment_loop_invariant {A : Type} (P : TF.tensor3 A -> Prop)
  (augmentations : list (TF.tensor3 A -> M (TF.tensor3 A))) :
  (forall f, In f augmentations ->
     forall x s y s', P x -> f x s = (Ok y, s') -> P y) ->
  forall x s y s',
    P x -> augment_loop augmentations x s = (Ok y, s') -> P y.
Proof.
  induction augmentations as [|f more IH]; intros Hkeep x s y s' Hx Hrun.
  - cbn in Hrun. unfold ret in Hrun. now inversion Hrun; subst.
  - rewrite augment_loop_stage in Hrun.
    assert (Hmore : forall g, In g more ->
              forall x s y s', P x -> g x s = (Ok y, s') -> P y).
    { intros g Hg. apply Hkeep. now right. }
    destruct (TF.less (s 0%nat) (1 # 4)).
    + unfold bindM in Hrun.
      destruct (f x (rest s)) as [[x1|e] s1] eqn:Hf; [|discriminate Hrun].
      apply (IH Hmore x1 s1 y s'); [|exact Hrun].
      apply (Hkeep f (or_introl eq_refl) x (rest s) x1 s1 Hx Hf).
    + now apply (IH Hmore x (rest s) y s').
Qed.

Lemma augment_loop_invariant_witness :
  TF.has_shape 1 2 1 [[[2]; [1]]] = true.
Proof.
  refine (augment_loop_invariant
            (fun t : TF.tensor3 Z => TF.has_shape 1 2 1 t = true)
            [flip; flip] _ [[[1]; [2]]]
            (fun n => if Nat.ltb n 2 then 0%Q else 1%Q) [[[2]; [1]]]
            (after 3 (fun n => if Nat.ltb n 2 then 0%Q else 1%Q))
            eq_refl eq_refl).
  intros f Hf x s0 y0 s0' Hx Hrun.
  assert (Hflip : f = flip) by (destruct Hf as [<- | [<- | []]]; reflexivity).
  subst f. rewrite flip_stage in Hrun. inversion Hrun; subst.
  destruct (TF.less (s0 0%nat) (1 # 2)); [now apply has_shape_flip | exact Hx].
Defined.

(** * Further properties of the transform *)

Lemma flip_involutive {A : Type} (x : TF.tensor3 A) :
  TF.flip_left_right (TF.flip_left_right x) = x.
Proof.
  unfold TF.flip_left_right. rewrite map_map.
  rewrite <- (map_id x) at 2. apply map_ext. apply rev_involutive.
Qed.

Lemma flip_map {A B : Type} (f : list A -> list B) (x : TF.tensor3 A) :
  map (map f) (TF.flip_left_right x) = TF.flip_left_right (map (map f) x).
Proof.
  unfold TF.flip_left_right. rewrite !map_map. apply map_ext.
  intros row. apply map_rev.
Qed.

(** X19. On valid labels the one-hot encoding loses nothing: two labels
    in [0, num_classes) with the same encoding are the same label. *)
Theorem one_hot_injective (n l1 l2 : Z) :
  0 <= l1 < n -> 0 <= l2 < n ->
  TF.one_hot l1 n = TF.one_hot l2 n -> l1 = l2.
Proof.
  intros H1 H2. unfold TF.one_hot.
  destruct (Z.ltb_spec n 0) as [Hneg|Hpos]; [lia|].
  intros Heq. inversion Heq as [Hmap].
  assert (Hnth : nth_error
            (map (fun d => if l1 =? d then TF.one else TF.zero) (TF.range n))
            (Z.to_nat l1)
          = nth_error
              (map (fun d => if l2 =? d then TF.one else TF.zero)
                   (TF.range n)) (Z.to_nat l1)) by now rewrite Hmap.
  rewrite !nth_error_map, range_nth in Hnth by lia.
  cbn [option_map] in Hnth. rewrite Z2Nat.id, Z.eqb_refl in Hnth by lia.
  destruct (Z.eqb_spec l2 l1); [congruence | discriminate Hnth].
Qed.

Lemma one_hot_injective_witness : 2 - 1 = 1.
Proof.
  apply (one_hot_injective 3 (2 - 1) 1); [lia | lia | reflexivity].
Defined.

Section TransformErrors.

Variable read_file : string -> result string.
Variable decode_png : string -> nat -> result (TF.tensor3 Z).
Variable resize_images : TF.tensor3 Z -> nat * nat -> TF.tensor3 TF.float32.

Local Abbreviation parse_train :=
  (_parse_function_train read_file decode_png resize_images).
Local Abbreviation parse_inference :=
  (_parse_function_inference read_file decode_png resize_images).
Local Abbreviation pre := (preprocess read_file decode_png resize_images).

(** X18. The output of inference mode can be read off every output of
    training mode: it is the training tensor or its mirror image, with
    the same label, and training fails exactly as inference does. So
    the augmentation loses no information about the sample. *)
Theorem inference_from_train (self : generator) (filename : string)
  (label : Z) (s s' : supply) :
  match fst (parse_train self filename label s) with
  | Ok (out, one_hot) =>
      fst (parse_inference self filename label s') = Ok (out, one_hot)
      \/ fst (parse_inference self filename label s')
         = Ok (TF.flip_left_right out, one_hot)
  | Raise e => fst (parse_inference self filename label s') = Raise e
  end.
Proof.
  rewrite train_preprocess, inference_preprocess. cbn [fst].
  destruct (pre self filename label) as [[img one_hot]|e]; [|reflexivity].
  destruct (TF.less (s 0%nat) (1 # 2) && TF.less (s 1%nat) (1 # 4)
            && TF.less (s 2%nat) (1 # 2)).
  - right. now rewrite flip_involutive.
  - now left.
Qed.

(** X17. Normalisation commutes with mirroring: when the resized image
    of one file is the mirror image of the resized image of another, the
    inference output of the one is the mirror image of the inference
    output of the other. So every training output is the inference
    output of the image or of its mirror image. *)
Theorem inference_of_mirrored_image (self : generator) (f1 f2 : string)
  (label : Z) (s1 s2 : supply) (c1 c2 : string) (d1 d2 : TF.tensor3 Z)
  (h w : nat) (img : TF.tensor3 TF.float32)
  (one_hot : TF.tensor1 TF.float32) :
  read_file f1 = Ok c1 -> decode_png c1 3 = Ok d1 ->
  read_file f2 = Ok c2 -> decode_png c2 3 = Ok d2 ->
  TF.has_shape h w 3 (resize_images d1 (227, 227)%nat) = true ->
  resize_images d2 (227, 227)%nat
  = TF.flip_left_right (resize_images d1 (227, 227)%nat) ->
  fst (parse_inference self f1 label s1) = Ok (img, one_hot) ->
  fst (parse_inference self f2 label s2)
  = Ok (TF.flip_left_right img, one_hot)
  /\ forall s,
       fst (parse_train self f1 label s)
       = fst (parse_inference self f1 label s1)
       \/ fst (parse_train self f1 label s)
          = fst (parse_inference self f2 label s2).
Proof.
  intros Hr1 Hd1 Hr2 Hd2 Hshape Hmirror Hinf.
  rewrite inference_preprocess in Hinf. cbn [fst] in Hinf.
  pose proof (preprocess_one_hot _ _ _ _ _ _ _ _ Hinf) as Hone.
  rewrite (preprocess_decoded _ _ _ _ _ _ _ _ _ _ _ Hone Hr1 Hd1 Hshape)
    in Hinf.
  inversion Hinf as [Himg]. clear Hinf.
  assert (Hshape2 : TF.has_shape h w 3 (resize_images d2 (227, 227)%nat)
                    = true).
  { rewrite Hmirror. now apply has_shape_flip. }
  assert (H2 : fst (parse_inference self f2 label s2)
               = Ok (TF.flip_left_right
                       (map (map (fun px => rev (centred px)))
                            (resize_images d1 (227, 227)%nat)), one_hot)).
  { rewrite inference_preprocess. cbn [fst].
    rewrite (preprocess_decoded _ _ _ _ _ _ _ _ _ _ _ Hone Hr2 Hd2 Hshape2).
    now rewrite Hmirror, flip_map. }
  split; [exact H2|].
  intros s. rewrite H2, train_preprocess, inference_preprocess. cbn [fst].
  rewrite (preprocess_decoded _ _ _ _ _ _ _ _ _ _ _ Hone Hr1 Hd1 Hshape).
  destruct (TF.less (s 0%nat) (1 # 2) && TF.less (s 1%nat) (1 # 4)
            && TF.less (s 2%nat) (1 # 2)); [now right | now left].
Qed.

Hypothesis decode_png_shape :
  forall contents img,
    decode_png contents 3 = Ok img ->
    exists h w, h <> 0%nat /\ w <> 0%nat /\ TF.has_shape h w 3 img = true.

Hypothesis resize_images_shape :
  forall img h w c new_h new_w,
    h <> 0%nat -> w <> 0%nat ->
    TF.has_shape h w c img = true ->
    TF.has_shape new_h new_w c (resize_images img (new_h, new_w)) = true.

(** X20. With a class count that is not negative, the transform fails
    only when the file cannot be read or cannot be decoded, and then with
    the exception of the reader or of the decoder, unchanged; this holds
    in both modes and for every label. *)
Theorem transform_fails_iff (self : generator) (filename : string)
  (label : Z) (s : supply) (e : exn) :
  0 <= num_classes self ->
  (fst (parse_inference self filename label s) = Raise e
   <-> read_file filename = Raise e
       \/ exists contents,
            read_file filename = Ok contents
            /\ decode_png contents 3 = Raise e)
  /\ (fst (parse_train self filename label s) = Raise e
      <-> fst (parse_inference self filename label s) = Raise e).
Proof.
  intros Hn. split.
  - rewrite inference_preprocess. cbn [fst]. unfold preprocess.
    unfold TF.one_hot.
    destruct (Z.ltb_spec (num_classes self) 0) as [Hneg|Hpos]; [lia|].
    cbn [bind].
    destruct (read_file filename) as [contents|e1]; cbn [bind].
    + destruct (decode_png contents 3) as [decoded|e2] eqn:Hd; cbn [bind].
      * destruct (decode_png_shape _ _ Hd) as (h & w & Hh & Hw & Hs).
        rewrite (subtract_shaped _ _ _
                   (resize_images_shape decoded h w 3%nat 227%nat 227%nat
                      Hh Hw Hs)).
        cbn [bind]. split; [discriminate|].
        intros [H | (c & Hc & Hraise)]; [discriminate H|].
        inversion Hc; subst. congruence.
      * split.
        -- intros H. right. exists contents. split; [reflexivity|].
           congruence.
        -- intros [H | (c & Hc & Hraise)]; [discriminate H|].
           inversion Hc; subst. congruence.
    + split.
      * intros H. left. congruence.
      * intros [H | (c & Hc & _)]; [congruence | discriminate Hc].
  - rewrite train_preprocess, inference_preprocess. cbn [fst].
    destruct (pre self filename label) as [[img one_hot]|e1].
    + split; discriminate.
    + reflexivity.
Qed.

End TransformErrors.

Lemma inference_of_mirrored_image_witness :
  exists img,
    fst (_parse_function_inference sample_read_file row_decode_png
           edge_resize_images sample_generator "abc.png" 0 (fun _ => 0%Q))
    = Ok (img, [TF.one; TF.zero])
    /\ fst (_parse_function_inference sample_read_file row_decode_png
              edge_resize_images sample_generator "cba.png" 0
              (fun _ => 0%Q))
       = Ok (TF.flip_left_right img, [TF.one; TF.zero])
    /\ TF.flip_left_right img <> img.
Proof.
  pose (d1 := [[[97; 97; 97]; [98; 98; 98]; [99; 99; 99]]]).
  pose (d2 := [[[99; 99; 99]; [98; 98; 98]; [97; 97; 97]]]).
  assert (Hshape : TF.has_shape 227 227 3
                     (edge_resize_images d1 (227, 227)%nat) = true)
    by (vm_compute; reflexivity).
  assert (Hmirror : edge_resize_images d2 (227, 227)%nat
                    = TF.flip_left_right
                        (edge_resize_images d1 (227, 227)%nat))
    by (vm_compute; reflexivity).
  assert (Hfirst :
    fst (_parse_function_inference sample_read_file row_decode_png
           edge_resize_images sample_generator "abc.png" 0 (fun _ => 0%Q))
    = Ok (map (map (fun px => rev (centred px)))
              (edge_resize_images d1 (227, 227)%nat), [TF.one; TF.zero])).
  { rewrite inference_preprocess. cbn [fst].
    apply (preprocess_decoded sample_read_file row_decode_png
             edge_resize_images sample_generator "abc.png" 0
             [TF.one; TF.zero] "abc.png" d1 227 227 eq_refl eq_refl eq_refl
             Hshape). }
  eexists. split; [exact Hfirst|]. split.
  - apply (inference_of_mirrored_image sample_read_file row_decode_png
             edge_resize_images sample_generator "abc.png" "cba.png" 0
             (fun _ => 0%Q) (fun _ => 0%Q) "abc.png" "cba.png" d1 d2
             227 227 _ [TF.one; TF.zero] eq_refl eq_refl eq_refl eq_refl
             Hshape Hmirror Hfirst).
  - intros H. apply (f_equal (fun t => TF.pixel t 0 0)) in H.
    vm_compute in H. discriminate H.
Defined.

Lemma transform_fails_iff_witness :
  fst (_parse_function_train sample_read_file sample_decode_png
         sample_resize_images sample_generator "missing.png" 0
         (fun _ => 0%Q)) = Raise NotFoundError.
Proof.
  destruct (transform_fails_iff sample_read_file sample_decode_png
              sample_resize_images sample_decode_png_shape
              sample_resize_images_shape sample_generator "missing.png" 0
              (fun _ => 0%Q) NotFoundError) as [Hinference Htrain].
  - cbn. lia.
  - apply Htrain. apply Hinference. left. reflexivity.
Defined.
